(** * AMPD peak detection: a shallow embedding of [ampd_obsolete.c]

    The C program detects peaks in quasi-periodic series with the AMPD
    algorithm (local maxima scalogram, row sums, lambda, column
    dispersion, thresholding) and drives it over batches of a long
    series.  This file embeds the numerical kernel and the batch loop
    of [main], and states the properties of the specification about
    them.

    Numbers are modelled as the program has them:
    - [int] is a [Z]; the subtraction of [find_peaks], which can leave
      the 32-bit range against a cell outside the buffer, and the
      running total of [main] wrap;
    - [double] is the kernel's binary64 [float], so every [double]
      operation of the program is the same IEEE operation here;
    - [float] (binary32) is a binary64 value rounded by [to_f32] after
      every operation (one rounding to binary64 followed by one to
      binary32 gives the binary32 result for [+ - * /]);
    - memory outside an allocated buffer is a function [oob] from the
      offending index to the value found there.

    The constants of the missing header [ampd.h] are the fields of
    [Consts]. *)

From Stdlib Require Import ZArith Floats Bool List Lia.
From stdpp Require Import base list.
Import ListNotations.

#[local] Open Scope Z_scope.

(** ** C numerics *)

(** [INT_MIN], [INT_MAX] and two's-complement wrap-around of a 32-bit
    [int]. *)
Definition INT_MIN : Z := - 2 ^ 31.
Definition INT_MAX : Z := 2 ^ 31 - 1.
Definition wrap32 (z : Z) : Z := (z + 2 ^ 31) mod 2 ^ 32 - 2 ^ 31.
Definition sub32 (a b : Z) : Z := wrap32 (a - b).

(** [(double) z] for an [int] [z]: exact. *)
Definition of_int (z : Z) : float :=
  if z <? 0 then PrimFloat.opp (PrimFloat.of_uint63 (Uint63.of_Z (- z)))
  else PrimFloat.of_uint63 (Uint63.of_Z z).

(** Rounding of a binary64 value of magnitude below [2^51] to the
    nearest integer, ties to even (the addition rounds). *)
Definition two52 : float := 4503599627370496%float.
Definition round_int (y : float) : float :=
  if (y <? 0)%float then (- ((- y + two52) - two52))%float
  else ((y + two52) - two52)%float.

(** [(float) x]: the binary32 value nearest to [x], ties to even, with
    binary32's subnormals ([2^-149] is the least quantum) and overflow
    to infinity. *)
Definition to_f32 (x : float) : float :=
  if is_nan x || is_infinity x || is_zero x then x
  else
    let '(_, e) := Z.frexp x in
    let q := Z.max (e - 24) (-149) in
    let z := Z.ldexp (round_int (Z.ldexp x (- q))) q in
    if (0x1p128 <=? abs z)%float
    then (if (z <? 0)%float then neg_infinity else infinity)
    else z.

Definition f32_add (x y : float) : float := to_f32 (x + y)%float.
Definition f32_mul (x y : float) : float := to_f32 (x * y)%float.
Definition f32_div (x y : float) : float := to_f32 (x / y)%float.

(** [ceil] of [math.h]. *)
Definition c_ceil (x : float) : float :=
  if is_nan x || is_infinity x then x
  else if (two52 <=? abs x)%float then x
  else
    let r := round_int x in
    if (r <? x)%float
    then (if (r + 1 =? 0)%float then neg_zero else (r + 1)%float)
    else r.

(** [(int) x] for a [double] [x]: truncation toward zero.  Outside the
    range of [int] (and for NaN) C leaves the result undefined; the
    value here is the one of the x86 conversion, [INT_MIN]. *)
Definition double_to_int (x : float) : Z :=
  match Prim2SF x with
  | S754_zero _ => 0
  | S754_finite s m e =>
      let v := if 0 <=? e then Z.shiftl (Z.pos m) e
               else Z.shiftr (Z.pos m) (- e) in
      let z := if s then - v else v in
      if (INT_MIN <=? z) && (z <=? INT_MAX) then z else INT_MIN
  | _ => INT_MIN
  end.

(** ** Memory and loops *)

(** [buf[i]]: the cell of the buffer when [i] is inside it, and what
    lies next to the buffer in memory otherwise. *)
Definition rd {A : Type} (oob : Z -> A) (buf : list A) (i : Z) : A :=
  if (0 <=? i) && (i <? Z.of_nat (length buf))
  then nth (Z.to_nat i) buf (oob i)
  else oob i.

(** [buf[i] = v], inside the buffer. *)
Definition wr {A : Type} (buf : list A) (i : Z) (v : A) : list A :=
  if (0 <=? i) && (i <? Z.of_nat (length buf))
  then <[Z.to_nat i := v]> buf
  else buf.

(** [for (i = lo; i < lo + count; i++) s = body i s]. *)
Fixpoint for_range {St : Type} (lo : Z) (count : nat)
    (body : Z -> St -> St) (s : St) : St :=
  match count with
  | O => s
  | S c => for_range (lo + 1) c body (body lo s)
  end.

(** [for (i = 0; i < n; i++)]; no iteration when [n <= 0]. *)
Definition for_upto {St : Type} (n : Z) (body : Z -> St -> St) (s : St)
  : St :=
  for_range 0 (Z.to_nat n) body s.

(** ** argmin_minind *)

(** The scan of [argmin_minind]: [min] and [out] after each index. *)
Definition argmin_step (oob : Z -> float) (data : list float)
    (i : Z) (st : float * Z) : float * Z :=
  let '(min, out) := st in
  if (rd oob data i <? min)%float then (rd oob data i, i) else (min, out).

Definition argmin_minind (oob : Z -> float) (data : list float) (n : Z) : Z :=
  snd (for_upto n (argmin_step oob data) (rd oob data 0, 0)).

(** ** Constants and environment *)

(** The macros the program takes from the missing [ampd.h] (and
    [RAND_MAX] from the C library).  [ALPHA] and [RAND_FACTOR] are
    converted to [float] where [calc_lms] uses them. *)
Record Consts : Type := mkConsts {
  ALPHA : float;
  RAND_FACTOR : float;
  RAND_MAX : Z;
  TOLERANCE : float;
  IND_THRESH : Z;
  TIMESTEP_DEFAULT : float
}.

(** [#define TESTING 1] and [#define HARDTRESHOLD_PEAKS 1]. *)
Definition TESTING : Z := 1.
Definition HARDTRESHOLD_PEAKS : Z := 1.

(** What a run finds outside its buffers, and the values [rand()]
    returns, call after call. *)
Record Env : Type := mkEnv {
  junk_data : Z -> float;
  junk_lms : Z -> float;
  junk_gamma : Z -> float;
  junk_sigma : Z -> float;
  junk_peaks : Z -> Z;
  draws : nat -> Z
}.

(** The same surroundings with other values of [rand()]. *)
Definition with_draws (e : Env) (rand : nat -> Z) : Env :=
  mkEnv (junk_data e) (junk_lms e) (junk_gamma e) (junk_sigma e)
        (junk_peaks e) rand.

(** ** linear_fit and linear_detrend *)

Record fit_sums : Type := mkSums {
  sumx : float; sumx2 : float; sumxy : float; sumy : float; sumy2 : float
}.

Definition fit_sums0 : fit_sums := mkSums 0 0 0 0 0.

(** One turn of the summation loop of [linear_fit]; note the [sqrt]
    where a least-squares fit squares. *)
Definition linear_fit_step (oob : Z -> float) (data : list float) (n : Z)
    (ts : float) (i : Z) (s : fit_sums) : fit_sums :=
  let x := (of_int i * ts / of_int n)%float in
  let y := rd oob data i in
  mkSums (sumx s + x) (sumx2 s + sqrt x) (sumxy s + x * y)
         (sumy s + y) (sumy2 s + sqrt y).

Record fit_result : Type := mkFit {
  fit_ret : Z; fit_a : float; fit_b : float; fit_r : float
}.

Definition fit_denom (n : Z) (s : fit_sums) : float :=
  (of_int n * sumx2 s - sqrt (sumx s))%float.

(** [linear_fit]; [r] is never [NULL] at the one call site. *)
Definition linear_fit (oob : Z -> float) (data : list float) (n : Z)
    (ts : float) : fit_result :=
  let s := for_upto n (linear_fit_step oob data n ts) fit_sums0 in
  let denom := fit_denom n s in
  if (denom =? 0)%float then mkFit (-1) 0 0 0
  else
    mkFit 0
      ((of_int n * sumxy s - sumx s * sumy s) / denom)
      ((sumy s * sumx2 s - sumx s * sumxy s) / denom)
      ((sumxy s - sumx s * sumy s / of_int n) /
         sqrt ((sumx2 s - sqrt (sumx s) / of_int n) *
               (sumy2 s - sqrt (sumy s) / of_int n))).

(** The value of the trend line at sample [i], as [linear_detrend]
    computes it. *)
Definition trend_at (n : Z) (ts a b : float) (i : Z) : float :=
  (a * of_int i * ts / of_int n + b)%float.

Definition linear_detrend (oob : Z -> float) (data : list float) (n : Z)
    (ts a b : float) : list float :=
  for_upto n
    (fun i d => wr d i (to_f32 (rd oob d i - trend_at n ts a b i)))
    data.

(** ** The local maxima scalogram *)

Record Mtx : Type := mkMtx {
  rows : Z; cols : Z; mdata : list (list float)
}.

(** [malloc_mtx]: [rows] rows of [cols] cells each, not initialised
    ([junk] stands for what the allocator left there). *)
Definition malloc_mtx (junk : float) (r c : Z) : Mtx :=
  mkMtx r c (replicate (Z.to_nat r) (replicate (Z.to_nat c) junk)).

Definition mtx_get (oob : Z -> float) (m : list (list float)) (k i : Z) : float :=
  rd oob (rd (fun _ => []) m k) i.

Definition mtx_set (m : list (list float)) (k i : Z) (v : float)
  : list (list float) :=
  wr m k (wr (rd (fun _ => []) m k) i v).

(** [rnd + a]: the value of a cell that is not a local maximum, from
    the value [r] of [rand()]. *)
Definition noise (c : Consts) (r : Z) : float :=
  let rnd := f32_div (to_f32 (of_int r)) (to_f32 (of_int (RAND_MAX c))) in
  let rnd := f32_mul rnd (to_f32 (RAND_FACTOR c)) in
  f32_add rnd (to_f32 (ALPHA c)).

(** The two edge guards of [calc_lms]: true when the cell goes on to
    the comparison. *)
Definition lms_guards (n k i : Z) : bool :=
  negb (i <? k) && negb (i >? n - k + 1).

(** The positions of [data] the comparison names. *)
Definition lms_reads (k i : Z) : list Z := [i - 1; i - k - 1; i + k - 1].

(** The comparison itself. *)
Definition lms_is_max (oob : Z -> float) (data : list float) (k i : Z) : bool :=
  (rd oob data (i - k - 1) <? rd oob data (i - 1))%float
  && (rd oob data (i + k - 1) <? rd oob data (i - 1))%float.

(** The value [calc_lms] stores in cell [(k, i)] when [rand()] gave
    [r]. *)
Definition lms_cell (c : Consts) (oob : Z -> float) (data : list float)
    (n k i : Z) (r : Z) : float :=
  if i <? k then noise c r
  else if i >? n - k + 1 then noise c r
  else if lms_is_max oob data k i then 0%float
  else noise c r.

(** The scalogram under construction and the number of calls of
    [rand()] so far. *)
Definition lms_state : Type := (list (list float) * nat)%type.

Definition calc_lms_inner (c : Consts) (e : Env) (data : list float)
    (n i k : Z) (st : lms_state) : lms_state :=
  let '(m, calls) := st in
  (mtx_set m k i (lms_cell c (junk_data e) data n k i (draws e calls)),
   S calls).

Definition calc_lms_loops (c : Consts) (e : Env) (data : list float)
    (n l : Z) (st : lms_state) : lms_state :=
  for_upto n (fun i => for_upto l (calc_lms_inner c e data n i)) st.

Definition calc_lms (c : Consts) (e : Env) (lms : Mtx) (data : list float)
  : Mtx :=
  mkMtx (rows lms) (cols lms)
    (fst (calc_lms_loops c e data (cols lms) (rows lms) (mdata lms, O))).

(** ** Row sums, column dispersion, peaks *)

Definition row_sum_lms (e : Env) (lms : Mtx) (gamma : list float)
  : list float :=
  for_upto (rows lms)
    (fun k g =>
       for_upto (cols lms)
         (fun i g =>
            wr g k (rd (junk_gamma e) g k
                    + mtx_get (junk_lms e) (mdata lms) k i)%float)
         (wr g k 0%float))
    gamma.

(** [sigma[i]] as [col_stddev_lms] leaves it. *)
Definition col_stddev_at (e : Env) (lms : Mtx) (lambda : Z) (i : Z) : float :=
  let l := of_int lambda in
  let sum_m_i :=
    for_upto lambda
      (fun k s => (s + mtx_get (junk_lms e) (mdata lms) k i / l)%float)
      0%float in
  for_upto lambda
    (fun k s =>
       (s + abs (mtx_get (junk_lms e) (mdata lms) k i - sum_m_i) / (l - 1))%float)
    0%float.

Definition col_stddev_lms (e : Env) (lms : Mtx) (sigma : list float)
    (lambda : Z) : list float :=
  for_upto (cols lms) (fun i s => wr s i (col_stddev_at e lms lambda i)) sigma.

(** The buffer [peaks], the cursor [j] and [*n_peaks]. *)
Record peaks_state : Type := mkPeaks {
  pk_buf : list Z; pk_j : Z; pk_n : Z
}.

Definition find_peaks_step (c : Consts) (e : Env) (sigma : list float)
    (i : Z) (st : peaks_state) : peaks_state :=
  if (rd (junk_sigma e) sigma i <? TOLERANCE c)%float then
    if HARDTRESHOLD_PEAKS =? 1 then
      if sub32 i (rd (junk_peaks e) (pk_buf st) (pk_j st - 1)) >? IND_THRESH c
      then mkPeaks (wr (pk_buf st) (pk_j st) i) (pk_j st + 1) (pk_n st + 1)
      else st
    else st
  else st.

Definition find_peaks (c : Consts) (e : Env) (sigma : list float) (n : Z)
    (peaks : list Z) : peaks_state :=
  for_upto n (find_peaks_step c e sigma) (mkPeaks peaks 0 0).

(** The peak set a caller reads back: the first [n_peaks] cells. *)
Definition peak_set (st : peaks_state) : list Z :=
  take (Z.to_nat (pk_n st)) (pk_buf st).

(** ** ampd *)

(** What a call of [ampd] leaves behind: the value returned, the fit,
    the scalogram, gamma, lambda, sigma and the peak set. *)
Record ampd_result : Type := mkAmpd {
  ampd_ret : Z;
  ampd_fit : fit_result;
  ampd_lms : list (list float);
  ampd_gamma : list float;
  ampd_lambda : Z;
  ampd_sigma : list float;
  ampd_peaks : list Z
}.

(** [l = (int)ceil(n / 2) - 1], the division being the one of [int]. *)
Definition lms_rows (n : Z) : Z :=
  double_to_int (c_ceil (of_int (Z.quot n 2))) - 1.

(** The steps of [ampd] after the fit was accepted. *)
Definition ampd_detect (c : Consts) (e : Env) (data : list float) (n : Z)
    (lms : Mtx) (gamma sigma : list float) (peaks : list Z)
    (fit : fit_result) : ampd_result :=
  let l := lms_rows n in
  let data := linear_detrend (junk_data e) data n (TIMESTEP_DEFAULT c)
                (fit_a fit) (fit_b fit) in
  let lms := calc_lms c e lms data in
  let gamma := row_sum_lms e lms gamma in
  let lambda := argmin_minind (junk_gamma e) gamma l in
  let sigma := col_stddev_lms e lms sigma lambda in
  let st := find_peaks c e sigma n peaks in
  mkAmpd (pk_n st) fit (mdata lms) gamma lambda sigma (peak_set st).

(** [ampd]: the return value of [linear_fit] is dropped; only a NaN
    [r] stops the window. *)
Definition ampd (c : Consts) (e : Env) (data : list float) (n : Z)
    (lms : Mtx) (gamma sigma : list float) (peaks : list Z) : ampd_result :=
  let fit := linear_fit (junk_data e) data n (TIMESTEP_DEFAULT c) in
  if is_nan (fit_r fit) then mkAmpd (-1) fit (mdata lms) gamma 0 sigma []
  else ampd_detect c e data n lms gamma sigma peaks fit.

(** The body of the batch loop of [main] for one window of [n]
    samples: the buffers are allocated, then [ampd] runs. *)
Definition run_window (c : Consts) (e : Env) (data : list float) (n : Z)
  : ampd_result :=
  let l := lms_rows n in
  ampd c e data n
    (malloc_mtx (junk_lms e 0) l n)
    (replicate (Z.to_nat l) (junk_gamma e 0))
    (replicate (Z.to_nat n) (junk_sigma e 0))
    (replicate (Z.to_nat n) (junk_peaks e 0)).

(** ** The batch loop of main *)

Record batch_state : Type := mkBatch {
  sum_n_peaks : Z;
  engine_calls : list (Z * Z)
}.

(** What one window adds to [sum_n_peaks]. *)
Definition peak_share (n_peaks : Z) (overlap : float) : Z :=
  double_to_int (of_int n_peaks * (1 - overlap))%float.

(** The loop [for (i = 0; i < cycles; i++)] of [main], with its two
    [break]s.  [engine ind n] is the value [ampd] returns on the [n]
    samples fetched at offset [ind]; each call is logged. *)
Fixpoint batch_loop (engine : Z -> Z -> Z) (data_buf n_ovlap cycles : Z)
    (overlap : float) (todo : nat) (i : Z) (st : batch_state) : batch_state :=
  match todo with
  | O => st
  | S todo' =>
      if (TESTING =? 1) && (i >? 0) then st
      else
        let ind := i * (data_buf - n_ovlap) in
        if i =? cycles - 1 then st
        else
          let n := data_buf in
          let n_peaks := engine ind n in
          batch_loop engine data_buf n_ovlap cycles overlap todo' (i + 1)
            (mkBatch (wrap32 (sum_n_peaks st + peak_share n_peaks overlap))
                     (engine_calls st ++ [(ind, n)]))
  end.

Definition n_ovlap_of (data_buf : Z) (overlap : float) : Z :=
  double_to_int (of_int data_buf * overlap)%float.

Definition cycles_of (datalen data_buf n_ovlap : Z) : Z :=
  double_to_int (c_ceil (of_int datalen / of_int (data_buf - n_ovlap))%float).

Definition main_batches (engine : Z -> Z -> Z) (datalen data_buf : Z)
    (overlap : float) : batch_state :=
  let n_ovlap := n_ovlap_of data_buf overlap in
  let cycles := cycles_of datalen data_buf n_ovlap in
  batch_loop engine data_buf n_ovlap cycles overlap (Z.to_nat cycles) 0
    (mkBatch 0 []).

(** ** Reading the input file: count_char and fetch_data *)

(** [EOF] of [stdio.h], and the conversion of the [int] that [getc]
    returns to a [char] (signed, as on x86). *)
Definition EOF : Z := -1.
Definition to_schar (z : Z) : Z := (z + 128) mod 256 - 128.

(** The loop of [count_char] over the bytes of the file, each between
    0 and 255: at the end of the file [getc] returns [EOF]; a byte is
    stored in the [char] [c] before it is compared with [EOF]. *)
Fixpoint count_char_loop (bytes : list Z) (cc count : Z) : Z :=
  match bytes with
  | [] => count
  | b :: rest =>
      let c := to_schar b in
      if c =? EOF then count
      else count_char_loop rest cc
             (if c =? cc then wrap32 (count + 1) else count)
  end.

(** [count_char]: the file is its bytes, or nothing when [fopen]
    fails and the program exits. *)
Definition count_char (file : option (list Z)) (cc : Z) : option Z :=
  match file with
  | None => None
  | Some bytes => Some (count_char_loop bytes cc 0)
  end.

(** The state of [fetch_data]: the buffer [data], the floats stored
    outside it (position and value, in order), [count] and [i]. *)
Record fetch_state : Type := mkFetch {
  fd_data : list float;
  fd_spill : list (Z * float);
  fd_count : Z;
  fd_i : Z
}.

(** [sscanf(buf, "%f\n", data + i)]: the float converted from the
    line, if any, is stored at [data[i]], inside the buffer or not. *)
Definition fetch_store (st : fetch_state) (v : option float) : fetch_state :=
  match v with
  | None => st
  | Some x =>
      if (0 <=? fd_i st) && (fd_i st <? Z.of_nat (length (fd_data st)))
      then mkFetch (wr (fd_data st) (fd_i st) x) (fd_spill st)
                   (fd_count st) (fd_i st)
      else mkFetch (fd_data st) (fd_spill st ++ [(fd_i st, x)])
                   (fd_count st) (fd_i st)
  end.

(** The loop [while(fgets(buf, FBUF, fp))] of [fetch_data].  The file
    is the list of the strings [fgets] returns (one per line shorter
    than [FBUF]), each given by what [sscanf] converts from it. *)
Fixpoint fetch_loop (lines : list (option float)) (n ind : Z)
    (st : fetch_state) : fetch_state :=
  match lines with
  | [] => st
  | l :: rest =>
      if fd_count st <? ind then
        fetch_loop rest n ind
          (mkFetch (fd_data st) (fd_spill st) (wrap32 (fd_count st + 1))
                   (fd_i st))
      else if fd_count st >? wrap32 (ind + n) then st
      else
        let st' := fetch_store st l in
        fetch_loop rest n ind
          (mkFetch (fd_data st') (fd_spill st') (wrap32 (fd_count st + 1))
                   (wrap32 (fd_i st + 1)))
  end.

Definition fetch_data (file : option (list (option float)))
    (data : list float) (n ind : Z) : option fetch_state :=
  match file with
  | None => None
  | Some lines => Some (fetch_loop lines n ind (mkFetch data [] 0 0))
  end.

(** ** extract_raw_filename *)

(** The copy loop of [extract_raw_filename] from index [i] on: it
    stops at the first ['.'] (46). *)
Fixpoint copy_until_dot (tmp : list Z) (i : Z) (bname : list Z) : list Z :=
  match tmp with
  | [] => bname
  | ch :: rest =>
      if negb (ch =? 46) then copy_until_dot rest (i + 1) (wr bname i ch)
      else bname
  end.

(** [extract_raw_filename] on [tmp], the characters of
    [basename(path)] before its terminating zero: [bname] is a buffer
    of [buf] bytes, zeroed first; a name longer than the buffer ends
    the program. *)
Definition extract_raw_filename (tmp : list Z) (buf : Z) : option (list Z) :=
  let bname := replicate (Z.to_nat buf) 0 in
  if Z.of_nat (length tmp) >? buf then None
  else Some (copy_until_dot tmp 0 bname).

(** ** Notions of the specification and sample inputs *)

(** A matrix of [l] rows of [n] cells each. *)
Definition mtx_wf (l n : Z) (m : list (list float)) : Prop :=
  Z.of_nat (length m) = l /\
  forall k, 0 <= k < l -> Z.of_nat (length (rd (fun _ => []) m k)) = n.

(** The sum of row [k] of a scalogram, cell after cell, in [double]. *)
Definition row_total (e : Env) (lms : Mtx) (k : Z) : float :=
  for_upto (cols lms)
    (fun i s => (s + mtx_get (junk_lms e) (mdata lms) k i)%float) 0%float.

(** The decision of [calc_lms] for cell [(k, i)]: the comparison is
    reached and succeeds.  It reads the samples only. *)
Definition lms_flagged (oob : Z -> float) (data : list float) (n k i : Z)
  : bool :=
  lms_guards n k i && lms_is_max oob data k i.

(** The sum of the squared residuals of the line [y = a t + b] on the
    window, over the time axis [t_i = i ts / n] of [linear_fit]: the
    quantity a least-squares fit minimises. *)
Definition sum_sq_residuals (oob : Z -> float) (data : list float) (n : Z)
    (ts a b : float) : float :=
  for_upto n
    (fun i s =>
       let t := (of_int i * ts / of_int n)%float in
       let res := (rd oob data i - (a * t + b))%float in
       (s + res * res)%float)
    0%float.

(** The sum of the shares of the windows in a log of engine calls. *)
Definition shares_total (engine : Z -> Z -> Z) (overlap : float)
    (calls : list (Z * Z)) : Z :=
  foldr (fun w acc => peak_share (engine (fst w) (snd w)) overlap + acc) 0 calls.

(** [round(x)] of the specification: the integer nearest to [x], a
    half going away from zero. *)
Definition round_half_away (x : float) : Z :=
  if (x <? 0)%float then - double_to_int (0.5 - x)%float
  else double_to_int (x + 0.5)%float.

(** The constants and the surroundings used in the examples:
    [ALPHA = 1], [RAND_FACTOR = 1], glibc's [RAND_MAX], a tolerance
    [tol], a distance [ind] and a time step of [1]; zeros outside the
    buffers, [prev] in the cell before [peaks]. *)
Definition ex_consts (tol : float) (ind : Z) : Consts :=
  mkConsts 1 1 2147483647 tol ind 1.

Definition ex_env (prev : Z) (rand : nat -> Z) : Env :=
  mkEnv (fun _ => 0%float) (fun _ => 0%float) (fun _ => 0%float)
        (fun _ => 0%float) (fun _ => prev) rand.

Definition ex_sigma : list float := [0; 1; 1; 0; 1; 1; 1; 0]%float.

(** A window of eight samples and two sequences of [rand()] values:
    the scalogram has three rows, call [3 i + k] fills cell [(k, i)];
    both sequences give row 2 the value 0 and row 1 [RAND_MAX], and
    they differ on row 0. *)
Definition ex_window : list float := [1; 2; 4; 2; 1; 2; 4; 2]%float.

Definition ex_draws1 (j : nat) : Z :=
  if Nat.eqb (j mod 3) 2 then 0 else 2147483647.

Definition ex_draws2 (j : nat) : Z :=
  if Nat.eqb (j mod 3) 1 then 2147483647 else 0.

(** * Properties *)

(** ** Loops, wrap-around and memory *)

Lemma for_range_inv {St : Type} (P : Z -> St -> Prop) (body : Z -> St -> St) :
  forall (count : nat) (lo : Z) (s : St),
    P lo s ->
    (forall i t, lo <= i < lo + Z.of_nat count -> P i t -> P (i + 1) (body i t)) ->
    P (lo + Z.of_nat count) (for_range lo count body s).
Proof.
  induction count as [|c IH]; intros lo s H0 Hstep; simpl for_range.
  - replace (lo + Z.of_nat 0) with lo by lia. exact H0.
  - replace (lo + Z.of_nat (S c)) with ((lo + 1) + Z.of_nat c) by lia.
    apply IH.
    + apply Hstep; [lia | exact H0].
    + intros i t Hi. apply Hstep. lia.
Qed.

Lemma for_upto_inv {St : Type} (P : Z -> St -> Prop) (body : Z -> St -> St)
    (n : Z) (s : St) :
  0 <= n ->
  P 0 s ->
  (forall i t, 0 <= i < n -> P i t -> P (i + 1) (body i t)) ->
  P n (for_upto n body s).
Proof.
  intros Hn H0 Hstep. unfold for_upto.
  replace n with (0 + Z.of_nat (Z.to_nat n)) at 1 by lia.
  apply for_range_inv; [exact H0 |].
  intros i t Hi. apply Hstep. lia.
Qed.

Lemma for_upto_nothing {St : Type} (body : Z -> St -> St) (n : Z) (s : St) :
  n <= 0 -> for_upto n body s = s.
Proof.
  intros Hn. unfold for_upto.
  replace (Z.to_nat n) with O by lia. reflexivity.
Qed.

Lemma for_range_snoc {St : Type} (body : Z -> St -> St) :
  forall (count : nat) (lo : Z) (s : St),
    for_range lo (S count) body s =
      body (lo + Z.of_nat count) (for_range lo count body s).
Proof.
  induction count as [| c IH]; intros lo s.
  - simpl. rewrite Z.add_0_r. reflexivity.
  - change (for_range lo (S (S c)) body s)
      with (for_range (lo + 1) (S c) body (body lo s)).
    rewrite IH. simpl for_range.
    replace (lo + 1 + Z.of_nat c) with (lo + Z.of_nat (S c)) by lia.
    reflexivity.
Qed.

Lemma for_upto_succ {St : Type} (body : Z -> St -> St) (n : Z) (s : St) :
  0 <= n -> for_upto (n + 1) body s = body n (for_upto n body s).
Proof.
  intros Hn. unfold for_upto.
  replace (Z.to_nat (n + 1)) with (S (Z.to_nat n)) by lia.
  rewrite for_range_snoc. f_equal. lia.
Qed.

Lemma for_upto_ext {St : Type} (body1 body2 : Z -> St -> St) (n : Z) (s : St) :
  (forall i t, 0 <= i < n -> body1 i t = body2 i t) ->
  for_upto n body1 s = for_upto n body2 s.
Proof.
  intros Hext.
  destruct (Z_le_dec n 0) as [Hle | Hgt];
    [rewrite !for_upto_nothing by exact Hle; reflexivity |].
  apply (for_upto_inv
           (fun i t => t = for_upto i body2 s) body1 n s); [lia | |].
  - rewrite for_upto_nothing by lia. reflexivity.
  - intros i t Hi ->. rewrite for_upto_succ by lia. apply Hext. exact Hi.
Qed.

Lemma wrap32_id (z : Z) : INT_MIN <= z <= INT_MAX -> wrap32 z = z.
Proof.
  unfold INT_MIN, INT_MAX, wrap32. intros Hz.
  rewrite Z.mod_small; lia.
Qed.

Lemma rd_inside {A : Type} (oob : Z -> A) (buf : list A) (i : Z) (x : A) :
  0 <= i -> buf !! Z.to_nat i = Some x -> rd oob buf i = x.
Proof.
  intros Hi Hx. unfold rd.
  pose proof (lookup_lt_Some _ _ _ Hx) as Hlen.
  replace ((0 <=? i) && (i <? Z.of_nat (length buf))) with true
    by (symmetry; apply andb_true_iff; split; [apply Z.leb_le | apply Z.ltb_lt]; lia).
  apply nth_lookup_Some with (d := oob i) in Hx. exact Hx.
Qed.

Lemma rd_lookup {A : Type} (oob : Z -> A) (buf : list A) (i : Z) :
  0 <= i < Z.of_nat (length buf) ->
  buf !! Z.to_nat i = Some (rd oob buf i).
Proof.
  intros Hi.
  destruct (lookup_lt_is_Some_2 buf (Z.to_nat i)) as [x Hx]; [lia |].
  rewrite Hx. f_equal. symmetry. apply rd_inside; [lia | exact Hx].
Qed.

Lemma rd_outside {A : Type} (oob : Z -> A) (buf : list A) (i : Z) :
  i < 0 \/ Z.of_nat (length buf) <= i -> rd oob buf i = oob i.
Proof.
  intros Hi. unfold rd.
  destruct ((0 <=? i) && (i <? Z.of_nat (length buf))) eqn:E; [| reflexivity].
  apply andb_true_iff in E. destruct E as [E1 E2].
  apply Z.leb_le in E1. apply Z.ltb_lt in E2. lia.
Qed.

Lemma rd_ext {A : Type} (oob1 oob2 : Z -> A) (buf : list A) (i : Z) :
  (forall z, oob1 z = oob2 z) -> rd oob1 buf i = rd oob2 buf i.
Proof.
  intros Hext.
  destruct (Z_lt_dec i 0) as [Hneg | Hpos];
    [rewrite !rd_outside by lia; apply Hext |].
  destruct (Z_le_dec (Z.of_nat (length buf)) i) as [Hbig | Hin];
    [rewrite !rd_outside by lia; apply Hext |].
  apply rd_inside; [lia |]. apply rd_lookup. lia.
Qed.

Lemma length_wr {A : Type} (buf : list A) (i : Z) (v : A) :
  length (wr buf i v) = length buf.
Proof.
  unfold wr. destruct ((0 <=? i) && (i <? Z.of_nat (length buf)));
    [apply length_insert | reflexivity].
Qed.

Lemma rd_wr_same {A : Type} (oob : Z -> A) (buf : list A) (i : Z) (v : A) :
  0 <= i < Z.of_nat (length buf) -> rd oob (wr buf i v) i = v.
Proof.
  intros Hi. apply rd_inside; [lia |]. unfold wr.
  replace ((0 <=? i) && (i <? Z.of_nat (length buf))) with true
    by (symmetry; apply andb_true_iff; split; [apply Z.leb_le | apply Z.ltb_lt]; lia).
  apply list_lookup_insert_eq. lia.
Qed.

Lemma rd_wr_other {A : Type} (oob : Z -> A) (buf : list A) (i j : Z) (v : A) :
  i <> j -> rd oob (wr buf i v) j = rd oob buf j.
Proof.
  intros Hij.
  destruct (Z_lt_dec j 0) as [Hneg | Hpos];
    [rewrite !rd_outside by (rewrite ?length_wr; lia); reflexivity |].
  destruct (Z_le_dec (Z.of_nat (length buf)) j) as [Hbig | Hin];
    [rewrite !rd_outside by (rewrite ?length_wr; lia); reflexivity |].
  apply rd_inside; [lia |]. unfold wr.
  destruct ((0 <=? i) && (i <? Z.of_nat (length buf))) eqn:F.
  - apply andb_true_iff in F. destruct F as [F1 F2].
    apply Z.leb_le in F1. apply Z.ltb_lt in F2.
    rewrite list_lookup_insert_ne by lia. apply rd_lookup. lia.
  - apply rd_lookup. lia.
Qed.

(** ** The order of binary64 values that are not NaN *)

Ltac sf_cases :=
  repeat match goal with
  | |- context [Z.compare ?x ?y] => destruct (Z.compare_spec x y)
  | H : context [Z.compare ?x ?y] |- _ => destruct (Z.compare_spec x y)
  | |- context [Pos.compare_cont Eq ?x ?y] =>
      change (Pos.compare_cont Eq x y) with (Pos.compare x y);
      destruct (Pos.compare_spec x y)
  | H : context [Pos.compare_cont Eq ?x ?y] |- _ =>
      change (Pos.compare_cont Eq x y) with (Pos.compare x y) in H;
      destruct (Pos.compare_spec x y)
  end.

Ltac sf_solve :=
  try congruence; try discriminate; auto;
  sf_cases; subst; simpl in *; try discriminate; auto; try lia.

Lemma SFltb_irrefl (a : spec_float) : SFltb a a = false.
Proof.
  unfold SFltb. destruct a as [[]|[]| |[] m e]; simpl; try reflexivity;
    rewrite Z.compare_refl, Pos.compare_cont_refl; reflexivity.
Qed.

Lemma SFltb_cotrans (a b c : spec_float) :
  b <> S754_nan -> SFltb a c = true -> SFltb a b = true \/ SFltb b c = true.
Proof.
  unfold SFltb.
  destruct a as [[]|[]| |[] ma ea], b as [[]|[]| |[] mb eb],
    c as [[]|[]| |[] mc ec]; simpl; intros Hb H; sf_solve.
Qed.

Lemma SFltb_asym (a b : spec_float) : SFltb a b = true -> SFltb b a = false.
Proof.
  unfold SFltb.
  destruct a as [[]|[]| |[] ma ea], b as [[]|[]| |[] mb eb]; simpl; intros H;
    sf_solve.
Qed.

Lemma SFleb_ltb (a b : spec_float) :
  a <> S754_nan -> b <> S754_nan -> SFleb a b = negb (SFltb b a).
Proof.
  unfold SFleb, SFltb.
  destruct a as [[]|[]| |[] ma ea], b as [[]|[]| |[] mb eb]; simpl;
    intros Ha Hb; sf_solve.
Qed.

Lemma not_nan_SF (x : float) : is_nan x = false -> Prim2SF x <> S754_nan.
Proof.
  unfold is_nan. rewrite FloatAxioms.eqb_spec. intros H Hn. rewrite Hn in H.
  discriminate H.
Qed.

Lemma flt_irrefl (x : float) : (x <? x)%float = false.
Proof. rewrite FloatAxioms.ltb_spec. apply SFltb_irrefl. Qed.

Lemma flt_asym (x y : float) : (x <? y)%float = true -> (y <? x)%float = false.
Proof. rewrite !FloatAxioms.ltb_spec. apply SFltb_asym. Qed.

Lemma flt_cotrans (x y z : float) :
  is_nan y = false -> (x <? z)%float = true ->
  (x <? y)%float = true \/ (y <? z)%float = true.
Proof.
  rewrite !FloatAxioms.ltb_spec. intros Hy. apply SFltb_cotrans, not_nan_SF, Hy.
Qed.

Lemma fle_not_lt (x y : float) :
  is_nan x = false -> is_nan y = false ->
  (x <=? y)%float = negb (y <? x)%float.
Proof.
  intros Hx Hy. rewrite FloatAxioms.leb_spec, FloatAxioms.ltb_spec.
  apply SFleb_ltb; apply not_nan_SF; assumption.
Qed.

(** ** argmin_minind *)

(** What the scan of [argmin_minind] has established after the
    indices below [m]: [min] is the cell [out], no cell seen is below
    it, and every cell before [out] is above it. *)
Definition argmin_inv (oob : Z -> float) (data : list float) (m : Z)
    (st : float * Z) : Prop :=
  let '(min, out) := st in
  0 <= out /\ out < Z.max m 1 /\ min = rd oob data out /\
  (forall i, 0 <= i < m -> (rd oob data i <? min)%float = false) /\
  (forall i, 0 <= i < out -> (min <? rd oob data i)%float = true).

Lemma argmin_step_inv (oob : Z -> float) (data : list float) (n : Z) :
  (forall i, 0 <= i < n -> is_nan (rd oob data i) = false) ->
  forall m st, 0 <= m < n ->
    argmin_inv oob data m st -> argmin_inv oob data (m + 1) (argmin_step oob data m st).
Proof.
  intros Hnan m [min out] Hm (Ho1 & Ho2 & Hmin & Hlow & Hfirst).
  unfold argmin_step.
  destruct (rd oob data m <? min)%float eqn:Hlt.
  - repeat split; try lia.
    + intros i Hi. destruct (Z.eq_dec i m) as [-> | Hne].
      * apply flt_irrefl.
      * apply flt_asym.
        destruct (flt_cotrans _ (rd oob data i) _ (Hnan i ltac:(lia)) Hlt)
          as [H | H]; [exact H |].
        rewrite Hlow in H by lia. discriminate H.
    + intros i Hi.
      destruct (flt_cotrans _ (rd oob data i) _ (Hnan i ltac:(lia)) Hlt)
        as [H | H]; [exact H |].
      assert (i < m) by lia.
      rewrite Hlow in H by lia. discriminate H.
  - repeat split; try lia; try assumption.
    intros i Hi. destruct (Z.eq_dec i m) as [-> | Hne];
      [exact Hlt | apply Hlow; lia].
Qed.

(** The index [argmin_minind] returns is an index of the vector,
    whatever the cells hold. *)
Lemma argmin_minind_in_range (oob : Z -> float) (data : list float) (n : Z) :
  1 <= n -> 0 <= argmin_minind oob data n < n.
Proof.
  intros Hn. unfold argmin_minind.
  assert (Hinv : (fun m (st : float * Z) => 0 <= snd st < Z.max m 1) n
                   (for_upto n (argmin_step oob data) (rd oob data 0, 0))).
  { apply for_upto_inv
      with (P := fun m (st : float * Z) => 0 <= snd st < Z.max m 1);
      [lia | simpl; lia |].
    intros i [min out] Hi Hout. unfold argmin_step. simpl in Hout.
    destruct (rd oob data i <? min)%float; simpl; lia. }
  simpl in Hinv. lia.
Qed.

(** C6.  For a gamma vector of [n >= 1] cells, none of them NaN,
    [argmin_minind] returns an index [lambda] with [0 <= lambda < n]
    whose cell is the global minimum (it is [<=] every cell) and is the
    first to attain it (every earlier cell is strictly larger). *)
Theorem argmin_minind_first_minimum (oob : Z -> float) (gamma : list float)
    (n : Z) :
  1 <= n ->
  n = Z.of_nat (length gamma) ->
  Forall (fun x => is_nan x = false) gamma ->
  let lambda := argmin_minind oob gamma n in
  0 <= lambda < n /\
  (forall i, 0 <= i < n ->
     (rd oob gamma lambda <=? rd oob gamma i)%float = true) /\
  (forall i, 0 <= i < lambda ->
     (rd oob gamma lambda <? rd oob gamma i)%float = true).
Proof.
  intros Hn Hlen Hall lambda.
  assert (Hnan : forall i, 0 <= i < n -> is_nan (rd oob gamma i) = false).
  { intros i Hi. rewrite Forall_lookup in Hall.
    apply (Hall (Z.to_nat i)). apply rd_lookup. lia. }
  assert (Hinv : argmin_inv oob gamma n
                   (for_upto n (argmin_step oob gamma) (rd oob gamma 0, 0))).
  { apply for_upto_inv with (P := argmin_inv oob gamma); [lia | |].
    - repeat split; try lia; intros i Hi; lia.
    - intros i t Hi. apply argmin_step_inv with (n := n); assumption. }
  subst lambda. unfold argmin_minind.
  destruct (for_upto n (argmin_step oob gamma) (rd oob gamma 0, 0))
    as [min out].
  destruct Hinv as (Ho1 & Ho2 & Hmin & Hlow & Hfirst). simpl snd. subst min.
  split; [lia |]. split.
  - intros i Hi. rewrite fle_not_lt by (apply Hnan; lia).
    rewrite Hlow by lia. reflexivity.
  - exact Hfirst.
Qed.

Lemma argmin_minind_first_minimum_witness :
  let gamma := [6; 4; 4; 5]%float in
  0 <= argmin_minind (fun _ => 0%float) gamma 4 < 4 /\
  (forall i, 0 <= i < 4 ->
     (rd (fun _ => 0%float) gamma (argmin_minind (fun _ => 0%float) gamma 4)
        <=? rd (fun _ => 0%float) gamma i)%float = true) /\
  (forall i, 0 <= i < argmin_minind (fun _ => 0%float) gamma 4 ->
     (rd (fun _ => 0%float) gamma (argmin_minind (fun _ => 0%float) gamma 4)
        <? rd (fun _ => 0%float) gamma i)%float = true).
Proof.
  intros gamma.
  apply (argmin_minind_first_minimum (fun _ => 0%float) gamma 4).
  - lia.
  - reflexivity.
  - repeat constructor.
Defined.

(** ** find_peaks *)

(** What [find_peaks] has established after the indices below [m]:
    [j] and [*n_peaks] agree, the first [j] cells of [peaks] are
    indices below [m] whose sigma is under the tolerance, they increase,
    and neighbours are more than [IND_THRESH] apart. *)
Definition peaks_inv (c : Consts) (e : Env) (sigma : list float) (n m : Z)
    (st : peaks_state) : Prop :=
  let pk := rd (junk_peaks e) (pk_buf st) in
  0 <= pk_j st <= m /\
  pk_n st = pk_j st /\
  Z.of_nat (length (pk_buf st)) = n /\
  (forall q, 0 <= q < pk_j st ->
     0 <= pk q < m /\
     (rd (junk_sigma e) sigma (pk q) <? TOLERANCE c)%float = true) /\
  (forall q1 q2, 0 <= q1 < q2 -> q2 < pk_j st -> pk q1 < pk q2) /\
  (forall q, 0 <= q -> q + 1 < pk_j st -> IND_THRESH c < pk (q + 1) - pk q).

Lemma peaks_inv_weaken (c : Consts) (e : Env) (sigma : list float)
    (n m : Z) (st : peaks_state) :
  peaks_inv c e sigma n m st -> peaks_inv c e sigma n (m + 1) st.
Proof.
  unfold peaks_inv. intros (Hj & Hn & Hlen & Hin & Hmono & Hgap).
  repeat split; try lia; try assumption.
  - apply Hin. assumption.
  - destruct (Hin q H) as [Hq _]. lia.
  - apply Hin. assumption.
Qed.

Lemma find_peaks_step_inv (c : Consts) (e : Env) (sigma : list float)
    (n m : Z) (st : peaks_state) :
  n <= INT_MAX -> 0 <= m < n ->
  peaks_inv c e sigma n m st ->
  peaks_inv c e sigma n (m + 1) (find_peaks_step c e sigma m st).
Proof.
  intros Hmax Hm Hinv. unfold find_peaks_step.
  destruct (rd (junk_sigma e) sigma m <? TOLERANCE c)%float eqn:Htol;
    [| apply peaks_inv_weaken, Hinv].
  change (HARDTRESHOLD_PEAKS =? 1) with true. cbv iota.
  destruct (sub32 m (rd (junk_peaks e) (pk_buf st) (pk_j st - 1))
            >? IND_THRESH c) eqn:Hfar;
    [| apply peaks_inv_weaken, Hinv].
  destruct Hinv as (Hj & Hn & Hlen & Hin & Hmono & Hgap).
  destruct st as [buf j np]. simpl in *. subst np.
  assert (Hsame : rd (junk_peaks e) (wr buf j m) j = m)
    by (apply rd_wr_same; lia).
  assert (Hother : forall q, q <> j ->
            rd (junk_peaks e) (wr buf j m) q = rd (junk_peaks e) buf q)
    by (intros q Hq; apply rd_wr_other; lia).
  unfold peaks_inv. simpl.
  split; [lia |]. split; [lia |]. split; [rewrite length_wr; exact Hlen |].
  split; [| split].
  - intros q Hq. destruct (Z.eq_dec q j) as [-> | Hne].
    + rewrite Hsame. split; [lia | exact Htol].
    + rewrite Hother by exact Hne.
      destruct (Hin q ltac:(lia)) as [Hb Hs]. split; [lia | exact Hs].
  - intros q1 q2 H12 H2. rewrite (Hother q1) by lia.
    destruct (Z.eq_dec q2 j) as [-> | Hne].
    + rewrite Hsame. destruct (Hin q1 ltac:(lia)) as [Hb _]. lia.
    + rewrite Hother by exact Hne. apply Hmono; lia.
  - intros q Hq0 Hq. rewrite (Hother q) by lia.
    destruct (Z.eq_dec (q + 1) j) as [Heq | Hne].
    + rewrite Heq, Hsame.
      replace (j - 1) with q in Hfar by lia.
      destruct (Hin q ltac:(lia)) as [Hb _].
      unfold sub32 in Hfar. rewrite wrap32_id in Hfar
        by (unfold INT_MIN, INT_MAX in *; lia).
      lia.
    + rewrite Hother by exact Hne. apply Hgap; lia.
Qed.

Lemma find_peaks_inv (c : Consts) (e : Env) (sigma : list float) (n : Z)
    (peaks : list Z) :
  0 <= n <= INT_MAX -> Z.of_nat (length peaks) = n ->
  peaks_inv c e sigma n n (find_peaks c e sigma n peaks).
Proof.
  intros Hn Hlen. unfold find_peaks.
  apply for_upto_inv with (P := peaks_inv c e sigma n); [lia | |].
  - unfold peaks_inv. simpl. repeat split; try lia; intros; lia.
  - intros i t Hi. apply find_peaks_step_inv; lia.
Qed.

Lemma peak_set_lookup (e : Env) (st : peaks_state) (q : nat) (a : Z) :
  peak_set st !! q = Some a ->
  Z.of_nat q < pk_n st /\ rd (junk_peaks e) (pk_buf st) (Z.of_nat q) = a.
Proof.
  unfold peak_set. intros Hq.
  pose proof (lookup_lt_Some _ _ _ Hq) as Hlt.
  rewrite length_take in Hlt.
  rewrite lookup_take_lt in Hq by lia.
  split; [lia |].
  apply rd_inside; [lia |]. rewrite Nat2Z.id. exact Hq.
Qed.

(** C5.  The peak set [find_peaks] returns is strictly increasing,
    every index in it is an index of the window whose sigma is below
    the tolerance, and two consecutive peaks are more than
    [IND_THRESH] apart; its length is the count [*n_peaks]. *)
Theorem find_peaks_increasing_and_spaced (c : Consts) (e : Env)
    (sigma : list float) (n : Z) (peaks : list Z) :
  0 <= n <= INT_MAX ->
  Z.of_nat (length sigma) = n ->
  Z.of_nat (length peaks) = n ->
  let st := find_peaks c e sigma n peaks in
  let ps := peak_set st in
  (forall (q1 q2 : nat) (a b : Z),
     (q1 < q2)%nat -> ps !! q1 = Some a -> ps !! q2 = Some b -> a < b) /\
  (forall a : Z, a ∈ ps ->
     0 <= a < n /\
     (rd (junk_sigma e) sigma a <? TOLERANCE c)%float = true) /\
  (forall (q : nat) (a b : Z),
     ps !! q = Some a -> ps !! S q = Some b -> IND_THRESH c < b - a) /\
  Z.of_nat (length ps) = pk_n st.
Proof.
  intros Hn Hsig Hlen st ps.
  pose proof (find_peaks_inv c e sigma n peaks Hn Hlen) as Hinv.
  fold st in Hinv.
  destruct Hinv as (Hj & Hnp & Hbuf & Hin & Hmono & Hgap).
  split; [| split; [| split]].
  - intros q1 q2 a b H12 Ha Hb.
    apply (peak_set_lookup e) in Ha, Hb.
    destruct Ha as [Ha1 <-], Hb as [Hb1 <-]. apply Hmono; lia.
  - intros a Ha. apply list_elem_of_lookup in Ha. destruct Ha as [q Hq].
    apply (peak_set_lookup e) in Hq. destruct Hq as [Hq1 <-].
    destruct (Hin (Z.of_nat q) ltac:(lia)) as [Hb Hs].
    split; [lia | exact Hs].
  - intros q a b Ha Hb.
    apply (peak_set_lookup e) in Ha, Hb.
    destruct Ha as [Ha1 <-], Hb as [Hb1 <-].
    replace (Z.of_nat (S q)) with (Z.of_nat q + 1) by lia.
    apply Hgap; lia.
  - unfold ps, peak_set. rewrite length_take. lia.
Qed.

Lemma find_peaks_increasing_and_spaced_witness :
  let c := ex_consts 0.5 2 in
  let e := ex_env 0 (fun _ => 0) in
  let st := find_peaks c e ex_sigma 8 (replicate 8 0) in
  let ps := peak_set st in
  (forall (q1 q2 : nat) (a b : Z),
     (q1 < q2)%nat -> ps !! q1 = Some a -> ps !! q2 = Some b -> a < b) /\
  (forall a : Z, a ∈ ps ->
     0 <= a < 8 /\
     (rd (junk_sigma e) ex_sigma a <? TOLERANCE c)%float = true) /\
  (forall (q : nat) (a b : Z),
     ps !! q = Some a -> ps !! S q = Some b -> IND_THRESH c < b - a) /\
  Z.of_nat (length ps) = pk_n st.
Proof.
  intros c e.
  apply (find_peaks_increasing_and_spaced c e ex_sigma 8 (replicate 8 0)).
  - unfold INT_MAX. lia.
  - reflexivity.
  - reflexivity.
Defined.

(** With no peak accepted yet, a candidate is compared with the cell
    before the first cell of [peaks]. *)
Lemma find_peaks_step_first (c : Consts) (e : Env) (sigma : list float)
    (i : Z) (buf : list Z) :
  (rd (junk_sigma e) sigma i <? TOLERANCE c)%float = true ->
  find_peaks_step c e sigma i (mkPeaks buf 0 0) =
    if sub32 i (junk_peaks e (-1)) >? IND_THRESH c
    then mkPeaks (wr buf 0 i) 1 1
    else mkPeaks buf 0 0.
Proof.
  intros Htol. unfold find_peaks_step. rewrite Htol. simpl pk_j. simpl pk_buf.
  change (HARDTRESHOLD_PEAKS =? 1) with true. cbv iota.
  rewrite rd_outside by lia. reflexivity.
Qed.

(** [find_peaks] around the first candidate [i0]: nothing is stored
    before it; afterwards either it sits in [peaks[0]], or every peak
    stored lies beyond it. *)
Definition first_candidate_inv (c : Consts) (e : Env) (n i0 : Z)
    (peaks : list Z) (m : Z) (st : peaks_state) : Prop :=
  (m <= i0 -> st = mkPeaks peaks 0 0) /\
  (i0 < m ->
     Z.of_nat (length (pk_buf st)) = n /\ 0 <= pk_j st <= m /\
     pk_n st = pk_j st /\
     if sub32 i0 (junk_peaks e (-1)) >? IND_THRESH c
     then 1 <= pk_j st /\ rd (junk_peaks e) (pk_buf st) 0 = i0
     else forall q, 0 <= q < pk_j st ->
            i0 < rd (junk_peaks e) (pk_buf st) q).

Lemma find_peaks_first_candidate_inv (c : Consts) (e : Env)
    (sigma : list float) (n i0 : Z) (peaks : list Z) :
  0 <= i0 < n ->
  Z.of_nat (length peaks) = n ->
  (forall i, 0 <= i < i0 ->
     (rd (junk_sigma e) sigma i <? TOLERANCE c)%float = false) ->
  (rd (junk_sigma e) sigma i0 <? TOLERANCE c)%float = true ->
  first_candidate_inv c e n i0 peaks n (find_peaks c e sigma n peaks).
Proof.
  intros Hi0 Hlen Hnone Hcand. unfold find_peaks.
  apply for_upto_inv with (P := first_candidate_inv c e n i0 peaks); [lia | |].
  - split; [reflexivity | lia].
  - intros m st Hm [Hbefore Hafter].
    destruct (Z_lt_dec m i0) as [Hlt | Hge].
    + split; [intros _ | lia].
      rewrite (Hbefore ltac:(lia)). unfold find_peaks_step.
      rewrite Hnone by lia. reflexivity.
    + split; [lia | intros _].
      destruct (Z.eq_dec m i0) as [-> | Hne].
      * rewrite (Hbefore ltac:(lia)), find_peaks_step_first by exact Hcand.
        destruct (sub32 i0 (junk_peaks e (-1)) >? IND_THRESH c); simpl.
        -- rewrite length_wr. repeat split; try lia.
           apply rd_wr_same. lia.
        -- repeat split; try lia.
      * destruct (Hafter ltac:(lia)) as (Hbuf & Hj & Hnp & Hfirst).
        unfold find_peaks_step.
        destruct (rd (junk_sigma e) sigma m <? TOLERANCE c)%float;
          [| repeat split; try lia;
             destruct (sub32 i0 (junk_peaks e (-1)) >? IND_THRESH c);
             exact Hfirst].
        change (HARDTRESHOLD_PEAKS =? 1) with true. cbv iota.
        destruct (sub32 m (rd (junk_peaks e) (pk_buf st) (pk_j st - 1))
                  >? IND_THRESH c);
          [| repeat split; try lia;
             destruct (sub32 i0 (junk_peaks e (-1)) >? IND_THRESH c);
             exact Hfirst].
        simpl. rewrite length_wr. repeat split; try lia.
        destruct (sub32 i0 (junk_peaks e (-1)) >? IND_THRESH c).
        -- destruct Hfirst as [Hj1 H0]. split; [lia |].
           rewrite rd_wr_other by lia. exact H0.
        -- intros q Hq. destruct (Z.eq_dec q (pk_j st)) as [-> | Hq'].
           ++ rewrite rd_wr_same by lia. lia.
           ++ rewrite rd_wr_other by lia. apply Hfirst. lia.
Qed.

(** Whether the first candidate enters the peak set is decided by the
    cell before [peaks]: it is the first peak when [i0 - peaks[-1]]
    exceeds [IND_THRESH], and it is no peak at all otherwise. *)
Lemma find_peaks_first_candidate (c : Consts) (e : Env)
    (sigma : list float) (n i0 : Z) (peaks : list Z) :
  0 <= i0 < n ->
  Z.of_nat (length peaks) = n ->
  (forall i, 0 <= i < i0 ->
     (rd (junk_sigma e) sigma i <? TOLERANCE c)%float = false) ->
  (rd (junk_sigma e) sigma i0 <? TOLERANCE c)%float = true ->
  let ps := peak_set (find_peaks c e sigma n peaks) in
  if sub32 i0 (junk_peaks e (-1)) >? IND_THRESH c
  then ps !! O = Some i0
  else i0 ∉ ps.
Proof.
  intros Hi0 Hlen Hnone Hcand ps.
  destruct (find_peaks_first_candidate_inv c e sigma n i0 peaks
              Hi0 Hlen Hnone Hcand) as [_ Hafter].
  destruct (Hafter ltac:(lia)) as (Hbuf & Hj & Hnp & Hfirst).
  destruct (sub32 i0 (junk_peaks e (-1)) >? IND_THRESH c).
  - destruct Hfirst as [Hj1 H0]. unfold ps, peak_set.
    rewrite lookup_take_lt by lia. rewrite <- H0.
    apply (rd_lookup (junk_peaks e) _ 0). lia.
  - intros Hin. apply list_elem_of_lookup in Hin. destruct Hin as [q Hq].
    apply (peak_set_lookup e) in Hq. destruct Hq as [Hq1 Hq2].
    specialize (Hfirst (Z.of_nat q) ltac:(lia)). lia.
Qed.

(** C4 (what the program does).  On a sigma vector whose first
    candidate is index 0, with [IND_THRESH = 2]: when the cell before
    [peaks] holds 0 the first candidate is dropped, and when it holds
    -5 the first candidate is kept; the start of the peak set is
    decided by memory outside the buffer. *)
Theorem find_peaks_first_candidate_compared_outside :
  peak_set (find_peaks (ex_consts 0.5 2) (ex_env 0 (fun _ => 0))
              ex_sigma 8 (replicate 8 0)) = [3; 7] /\
  peak_set (find_peaks (ex_consts 0.5 2) (ex_env (-5) (fun _ => 0))
              ex_sigma 8 (replicate 8 0)) = [0; 3; 7].
Proof. split; vm_compute; reflexivity. Qed.

(** ** The scalogram *)

Lemma malloc_mtx_wf (junk : float) (l n : Z) :
  0 <= l -> 0 <= n -> mtx_wf l n (mdata (malloc_mtx junk l n)).
Proof.
  intros Hl Hn. unfold mtx_wf, malloc_mtx. simpl.
  split; [rewrite length_replicate; lia |].
  intros k Hk.
  rewrite (rd_inside _ _ k (replicate (Z.to_nat n) junk)).
  - rewrite length_replicate. lia.
  - lia.
  - apply lookup_replicate_2. lia.
Qed.

Lemma mtx_set_wf (l n : Z) (m : list (list float)) (k i : Z) (v : float) :
  mtx_wf l n m -> mtx_wf l n (mtx_set m k i v).
Proof.
  intros [Hl Hrow]. unfold mtx_set. split; [rewrite length_wr; exact Hl |].
  intros k' Hk'. destruct (Z.eq_dec k k') as [<- | Hne].
  - rewrite rd_wr_same by lia. rewrite length_wr. apply Hrow. lia.
  - rewrite rd_wr_other by exact Hne. apply Hrow. exact Hk'.
Qed.

Lemma mtx_get_set_same (oob : Z -> float) (l n : Z) (m : list (list float))
    (k i : Z) (v : float) :
  mtx_wf l n m -> 0 <= k < l -> 0 <= i < n ->
  mtx_get oob (mtx_set m k i v) k i = v.
Proof.
  intros [Hl Hrow] Hk Hi. unfold mtx_get, mtx_set.
  rewrite rd_wr_same by lia. apply rd_wr_same. rewrite Hrow; lia.
Qed.

Lemma mtx_get_set_other (oob : Z -> float) (l n : Z) (m : list (list float))
    (k i k' i' : Z) (v : float) :
  mtx_wf l n m -> 0 <= k < l -> k <> k' \/ i <> i' ->
  mtx_get oob (mtx_set m k i v) k' i' = mtx_get oob m k' i'.
Proof.
  intros [Hl Hrow] Hk Hne. unfold mtx_get, mtx_set.
  destruct (Z.eq_dec k k') as [<- | Hk'].
  - rewrite rd_wr_same by lia. apply rd_wr_other. lia.
  - rewrite rd_wr_other by exact Hk'. reflexivity.
Qed.

(** The state of [calc_lms] when column [i] is being filled and its
    rows below [p] are done: [i * l + p] calls of [rand()], and every
    cell written so far holds the value of [lms_cell] for the call that
    belongs to it. *)
Definition lms_inv (c : Consts) (e : Env) (data : list float) (n l : Z)
    (i p : Z) (st : lms_state) : Prop :=
  let '(m, calls) := st in
  mtx_wf l n m /\
  Z.of_nat calls = i * l + p /\
  forall k' i', 0 <= k' < l -> 0 <= i' < n ->
    i' < i \/ (i' = i /\ k' < p) ->
    mtx_get (junk_lms e) m k' i' =
      lms_cell c (junk_data e) data n k' i' (draws e (Z.to_nat (i' * l + k'))).

Lemma calc_lms_inner_inv (c : Consts) (e : Env) (data : list float)
    (n l i p : Z) (st : lms_state) :
  0 <= i < n -> 0 <= p < l ->
  lms_inv c e data n l i p st ->
  lms_inv c e data n l i (p + 1) (calc_lms_inner c e data n i p st).
Proof.
  intros Hi Hp. destruct st as [m calls]. intros (Hwf & Hcalls & Hcells).
  unfold calc_lms_inner, lms_inv.
  split; [apply mtx_set_wf, Hwf |]. split; [lia |].
  intros k' i' Hk' Hi' Hdone.
  destruct (Z.eq_dec k' p) as [-> | Hkp];
    [destruct (Z.eq_dec i' i) as [-> | Hii] |].
  - rewrite (mtx_get_set_same _ l n) by (assumption || lia).
    replace (Z.to_nat (i * l + p)) with calls by lia. reflexivity.
  - rewrite (mtx_get_set_other _ l n) by (assumption || lia).
    apply Hcells; lia.
  - rewrite (mtx_get_set_other _ l n) by (assumption || lia).
    apply Hcells; lia.
Qed.

Lemma calc_lms_column_inv (c : Consts) (e : Env) (data : list float)
    (n l i : Z) (st : lms_state) :
  0 <= l -> 0 <= i < n ->
  lms_inv c e data n l i 0 st ->
  lms_inv c e data n l (i + 1) 0
    (for_upto l (calc_lms_inner c e data n i) st).
Proof.
  intros Hl Hi Hinv.
  assert (Hend : lms_inv c e data n l i l
                   (for_upto l (calc_lms_inner c e data n i) st)).
  { apply for_upto_inv with (P := lms_inv c e data n l i);
      [exact Hl | exact Hinv |].
    intros p t Hp. apply calc_lms_inner_inv; assumption. }
  destruct (for_upto l (calc_lms_inner c e data n i) st) as [m calls].
  destruct Hend as (Hwf & Hcalls & Hcells).
  split; [exact Hwf |]. split; [lia |].
  intros k' i' Hk' Hi' Hdone. apply Hcells; lia.
Qed.

(** Every cell of the scalogram [calc_lms] leaves is the value of
    [lms_cell] for the call of [rand()] made at that cell: call number
    [i * rows + k], the loop over the columns being the outer one. *)
Lemma calc_lms_cell (c : Consts) (e : Env) (lms : Mtx) (data : list float)
    (k i : Z) :
  mtx_wf (rows lms) (cols lms) (mdata lms) ->
  0 <= k < rows lms -> 0 <= i < cols lms ->
  mtx_get (junk_lms e) (mdata (calc_lms c e lms data)) k i =
    lms_cell c (junk_data e) data (cols lms) k i
      (draws e (Z.to_nat (i * rows lms + k))).
Proof.
  intros Hwf Hk Hi. unfold calc_lms, calc_lms_loops. simpl mdata.
  assert (Hend : lms_inv c e data (cols lms) (rows lms) (cols lms) 0
            (for_upto (cols lms)
               (fun i0 => for_upto (rows lms)
                            (calc_lms_inner c e data (cols lms) i0))
               (mdata lms, O))).
  { apply for_upto_inv
      with (P := fun i0 => lms_inv c e data (cols lms) (rows lms) i0 0);
      [lia | |].
    - split; [exact Hwf |]. split; [simpl; lia |]. intros; lia.
    - intros i0 t Hi0. apply calc_lms_column_inv; lia. }
  destruct (for_upto (cols lms)
              (fun i0 => for_upto (rows lms)
                           (calc_lms_inner c e data (cols lms) i0))
              (mdata lms, O)) as [m calls].
  destruct Hend as (_ & _ & Hcells). simpl fst.
  apply Hcells; lia.
Qed.

(** At [k = 0] the comparison sets a sample against itself. *)
Lemma lms_is_max_row0 (oob : Z -> float) (data : list float) (i : Z) :
  lms_is_max oob data 0 i = false.
Proof.
  unfold lms_is_max. replace (i - 0 - 1) with (i - 1) by lia.
  rewrite flt_irrefl. reflexivity.
Qed.

Lemma lms_cell_row0 (c : Consts) (oob : Z -> float) (data : list float)
    (n i r : Z) :
  lms_cell c oob data n 0 i r = noise c r.
Proof.
  unfold lms_cell. rewrite lms_is_max_row0.
  destruct (i <? 0); [reflexivity |].
  destruct (i >? n - 0 + 1); reflexivity.
Qed.

(** A cell is zero exactly when it was flagged, provided the noise
    value drawn for it is not zero. *)
Lemma lms_cell_zero (c : Consts) (oob : Z -> float) (data : list float)
    (n k i r : Z) :
  (noise c r =? 0)%float = false ->
  (lms_cell c oob data n k i r =? 0)%float = lms_flagged oob data n k i.
Proof.
  intros Hnz. unfold lms_cell, lms_flagged, lms_guards.
  destruct (i <? k); simpl; [exact Hnz |].
  destruct (i >? n - k + 1); simpl; [exact Hnz |].
  destruct (lms_is_max oob data k i); [reflexivity | exact Hnz].
Qed.

Lemma lms_flagged_ext (oob1 oob2 : Z -> float) (data : list float)
    (n k i : Z) :
  (forall z, oob1 z = oob2 z) ->
  lms_flagged oob1 data n k i = lms_flagged oob2 data n k i.
Proof.
  intros Hext. unfold lms_flagged, lms_is_max.
  rewrite !(rd_ext oob1 oob2 data) by exact Hext. reflexivity.
Qed.

(** [row_sum_lms] while row [k] is being summed and its cells below
    [i] are in: the rows before [k] hold their totals, [gamma[k]] the
    partial sum. *)
Definition row_sum_inv (e : Env) (lms : Mtx) (k i : Z) (g : list float)
  : Prop :=
  Z.of_nat (length g) = rows lms /\
  (forall k0, 0 <= k0 < k -> rd (junk_gamma e) g k0 = row_total e lms k0) /\
  rd (junk_gamma e) g k =
    for_upto i
      (fun i0 s => (s + mtx_get (junk_lms e) (mdata lms) k i0)%float) 0%float.

(** [row_sum_lms] between two rows: the rows before [k] hold their
    totals. *)
Definition row_sums_done (e : Env) (lms : Mtx) (k : Z) (g : list float)
  : Prop :=
  Z.of_nat (length g) = rows lms /\
  forall k0, 0 <= k0 < k -> rd (junk_gamma e) g k0 = row_total e lms k0.

Lemma row_sum_lms_one_row (e : Env) (lms : Mtx) (k : Z) (g : list float) :
  0 <= cols lms -> 0 <= k < rows lms ->
  row_sums_done e lms k g ->
  row_sums_done e lms (k + 1)
    (for_upto (cols lms)
       (fun i g0 =>
          wr g0 k (rd (junk_gamma e) g0 k
                   + mtx_get (junk_lms e) (mdata lms) k i)%float)
       (wr g k 0%float)).
Proof.
  intros Hn Hk [Hg Hdone].
  assert (Hrow : row_sum_inv e lms k (cols lms)
            (for_upto (cols lms)
               (fun i g0 =>
                  wr g0 k (rd (junk_gamma e) g0 k
                           + mtx_get (junk_lms e) (mdata lms) k i)%float)
               (wr g k 0%float))).
  { apply for_upto_inv with (P := row_sum_inv e lms k); [exact Hn | |].
    - split; [rewrite length_wr; exact Hg |]. split.
      + intros k0 Hk0. rewrite rd_wr_other by lia. apply Hdone. exact Hk0.
      + rewrite rd_wr_same by lia. rewrite for_upto_nothing by lia.
        reflexivity.
    - intros i g0 Hi (Hg0 & Hdone0 & Hpart).
      split; [rewrite length_wr; exact Hg0 |]. split.
      + intros k0 Hk0. rewrite rd_wr_other by lia. apply Hdone0. exact Hk0.
      + rewrite rd_wr_same by lia. rewrite for_upto_succ by lia.
        rewrite Hpart. reflexivity. }
  destruct Hrow as (Hg' & Hdone' & Htot).
  split; [exact Hg' |].
  intros k0 Hk0. destruct (Z.eq_dec k0 k) as [-> | Hne];
    [exact Htot | apply Hdone'; lia].
Qed.

(** After [row_sum_lms], [gamma[k]] is the total of row [k]. *)
Lemma row_sum_lms_row (e : Env) (lms : Mtx) (gamma : list float) (k : Z) :
  0 <= cols lms ->
  Z.of_nat (length gamma) = rows lms ->
  0 <= k < rows lms ->
  rd (junk_gamma e) (row_sum_lms e lms gamma) k = row_total e lms k.
Proof.
  intros Hn Hlen Hk. unfold row_sum_lms.
  assert (Hend : row_sums_done e lms (rows lms)
    (for_upto (rows lms)
       (fun k1 g =>
          for_upto (cols lms)
            (fun i g0 =>
               wr g0 k1 (rd (junk_gamma e) g0 k1
                         + mtx_get (junk_lms e) (mdata lms) k1 i)%float)
            (wr g k1 0%float))
       gamma)).
  { apply for_upto_inv with (P := row_sums_done e lms); [lia | |].
    - split; [exact Hlen | intros; lia].
    - intros k1 g Hk1. apply row_sum_lms_one_row; assumption. }
  destruct Hend as [_ Hall]. apply Hall. exact Hk.
Qed.

(** The noise values of the two sample sequences are not zero. *)
Lemma ex_draws1_noise (j : nat) :
  (noise (ex_consts 0.5 2) (ex_draws1 j) =? 0)%float = false.
Proof.
  unfold ex_draws1. destruct (Nat.eqb (j mod 3) 2); vm_compute; reflexivity.
Qed.

Lemma ex_draws2_noise (j : nat) :
  (noise (ex_consts 0.5 2) (ex_draws2 j) =? 0)%float = false.
Proof.
  unfold ex_draws2. destruct (Nat.eqb (j mod 3) 1); vm_compute; reflexivity.
Qed.

(** C10.  In the scalogram [calc_lms] leaves, every cell of the first
    stored row ([k = 0]) is the noise value of the [rand()] call made
    at that cell, because the comparison sets [data[i-1]] against
    itself and fails; the cell is not [0.0] as the noise value drawn
    for it is not; and [gamma[0]] is the sum of these noise values. *)
Theorem calc_lms_first_row_is_noise (c : Consts) (e : Env) (lms : Mtx)
    (data gamma : list float) :
  mtx_wf (rows lms) (cols lms) (mdata lms) ->
  1 <= rows lms ->
  0 <= cols lms ->
  Z.of_nat (length gamma) = rows lms ->
  (forall i, 0 <= i < cols lms ->
     (noise c (draws e (Z.to_nat (i * rows lms))) =? 0)%float = false) ->
  let m := calc_lms c e lms data in
  (forall i, 0 <= i < cols lms ->
     lms_is_max (junk_data e) data 0 i = false /\
     mtx_get (junk_lms e) (mdata m) 0 i
       = noise c (draws e (Z.to_nat (i * rows lms))) /\
     (mtx_get (junk_lms e) (mdata m) 0 i =? 0)%float = false) /\
  rd (junk_gamma e) (row_sum_lms e m gamma) 0 =
    for_upto (cols lms)
      (fun i s => (s + noise c (draws e (Z.to_nat (i * rows lms))))%float)
      0%float.
Proof.
  intros Hwf Hl Hn Hlen Hnz m.
  assert (Hcell : forall i, 0 <= i < cols lms ->
            mtx_get (junk_lms e) (mdata m) 0 i
              = noise c (draws e (Z.to_nat (i * rows lms)))).
  { intros i Hi. unfold m. rewrite calc_lms_cell by (assumption || lia).
    rewrite lms_cell_row0, Z.add_0_r. reflexivity. }
  split.
  - intros i Hi. split; [apply lms_is_max_row0 |].
    split; [apply Hcell, Hi |]. rewrite Hcell by exact Hi. apply Hnz, Hi.
  - rewrite row_sum_lms_row by (simpl; lia).
    unfold row_total. change (cols m) with (cols lms).
    apply for_upto_ext. intros i s Hi. rewrite Hcell by exact Hi.
    reflexivity.
Qed.

Lemma calc_lms_first_row_is_noise_witness :
  let c := ex_consts 0.5 2 in
  let e := ex_env 0 ex_draws1 in
  let m := calc_lms c e (malloc_mtx 0 3 8) ex_window in
  (forall i, 0 <= i < 8 ->
     lms_is_max (junk_data e) ex_window 0 i = false /\
     mtx_get (junk_lms e) (mdata m) 0 i
       = noise c (draws e (Z.to_nat (i * 3))) /\
     (mtx_get (junk_lms e) (mdata m) 0 i =? 0)%float = false) /\
  rd (junk_gamma e) (row_sum_lms e m [0; 0; 0]%float) 0 =
    for_upto 8
      (fun i s => (s + noise c (draws e (Z.to_nat (i * 3))))%float)
      0%float.
Proof.
  intros c e.
  apply (calc_lms_first_row_is_noise c e (malloc_mtx 0 3 8) ex_window
           [0; 0; 0]%float).
  - apply malloc_mtx_wf; lia.
  - simpl. lia.
  - simpl. lia.
  - reflexivity.
  - intros i Hi. apply ex_draws1_noise.
Defined.

(** In the scalogram [calc_lms] leaves, a cell is [0.0] exactly when
    [lms_flagged] names it, the noise values being non-zero. *)
Lemma calc_lms_zero_cell (c : Consts) (e : Env) (lms : Mtx)
    (data : list float) (k i : Z) :
  mtx_wf (rows lms) (cols lms) (mdata lms) ->
  0 <= k < rows lms ->
  0 <= i < cols lms ->
  (forall j, (noise c (draws e j) =? 0)%float = false) ->
  (mtx_get (junk_lms e) (mdata (calc_lms c e lms data)) k i =? 0)%float
    = lms_flagged (junk_data e) data (cols lms) k i.
Proof.
  intros Hwf Hk Hi Hnz.
  rewrite calc_lms_cell by assumption. apply lms_cell_zero, Hnz.
Qed.

(** C3 (as amended).  Two runs of the pipeline on the same window, in
    the same memory, with different values of [rand()] (the noise
    values being non-zero) leave scalograms with [0.0] in the same
    cells: the decision between 0 and noise reads the samples only. *)
Theorem ampd_flags_independent_of_draws (c : Consts) (e : Env)
    (rand2 : nat -> Z) (data : list float) (n k i : Z) :
  0 <= k < lms_rows n ->
  0 <= i < n ->
  (forall j, (noise c (draws e j) =? 0)%float = false) ->
  (forall j, (noise c (rand2 j) =? 0)%float = false) ->
  (mtx_get (junk_lms e)
     (ampd_lms (run_window c e data n)) k i =? 0)%float =
  (mtx_get (junk_lms e)
     (ampd_lms (run_window c (with_draws e rand2) data n)) k i =? 0)%float.
Proof.
  intros Hk Hi Hnz1 Hnz2.
  assert (Hwf : mtx_wf (lms_rows n) n
                  (mdata (malloc_mtx (junk_lms e 0) (lms_rows n) n)))
    by (apply malloc_mtx_wf; lia).
  unfold run_window, ampd.
  change (junk_data (with_draws e rand2)) with (junk_data e).
  destruct (is_nan (fit_r (linear_fit (junk_data e) data n
                             (TIMESTEP_DEFAULT c)))); [reflexivity |].
  set (fit := linear_fit (junk_data e) data n (TIMESTEP_DEFAULT c)).
  set (d := linear_detrend (junk_data e) data n (TIMESTEP_DEFAULT c)
              (fit_a fit) (fit_b fit)).
  pose proof (calc_lms_zero_cell c e
                (malloc_mtx (junk_lms e 0) (lms_rows n) n) d k i
                Hwf Hk Hi Hnz1) as H1.
  pose proof (calc_lms_zero_cell c (with_draws e rand2)
                (malloc_mtx (junk_lms e 0) (lms_rows n) n) d k i
                Hwf Hk Hi Hnz2) as H2.
  exact (eq_trans H1 (eq_sym H2)).
Qed.

Lemma ampd_flags_independent_of_draws_witness :
  let c := ex_consts 0.5 2 in
  let e := ex_env 0 ex_draws1 in
  (mtx_get (junk_lms e)
     (ampd_lms (run_window c e ex_window 8)) 2 3 =? 0)%float =
  (mtx_get (junk_lms e)
     (ampd_lms (run_window c (with_draws e ex_draws2) ex_window 8)) 2 3
   =? 0)%float.
Proof.
  intros c e.
  apply (ampd_flags_independent_of_draws c e ex_draws2 ex_window 8 2 3).
  - split; [lia | vm_compute; reflexivity].
  - lia.
  - exact ex_draws1_noise.
  - exact ex_draws2_noise.
Defined.

(** In every row the cell on the diagonal passes the guards and its
    comparison names the position before the buffer; from row 2 on,
    the last cell the guards let through (a column of the window)
    names the position after it. *)
Lemma lms_guards_admit_position_before (n k : Z) :
  0 <= k -> 2 * k <= n + 1 ->
  lms_guards n k k = true /\ k - k - 1 = -1 /\ In (k - k - 1) (lms_reads k k).
Proof.
  intros Hk Hn. unfold lms_guards, lms_reads.
  rewrite Z.ltb_irrefl. simpl negb. rewrite andb_true_l.
  split; [| split; [lia | simpl; auto]].
  apply negb_true_iff. rewrite Z.gtb_ltb. apply Z.ltb_ge. lia.
Qed.

Lemma lms_guards_admit_position_after (n k : Z) :
  2 <= k -> 2 * k <= n + 1 ->
  let i := n - k + 1 in
  0 <= i < n /\ lms_guards n k i = true /\ i + k - 1 = n /\
  In (i + k - 1) (lms_reads k i).
Proof.
  intros Hk Hn i. unfold lms_guards, lms_reads.
  split; [unfold i; lia |]. split; [| split; [unfold i; lia | simpl; auto]].
  apply andb_true_iff. split; apply negb_true_iff.
  - apply Z.ltb_ge. unfold i. lia.
  - rewrite Z.gtb_ltb. apply Z.ltb_ge. unfold i. lia.
Qed.

(** C7 (what the program does).  In a window of 10 samples the cells
    [(k, i) = (0, 0)], [(1, 1)] and [(2, 9)] pass both edge guards,
    and the comparison then names the positions -1 and 10, outside
    [data[0..9]]; what the scalogram holds at [(1, 1)] changes with
    the value found before the buffer. *)
Theorem calc_lms_guards_admit_outside_reads :
  lms_guards 10 0 0 = true /\ lms_reads 0 0 = [-1; -1; -1] /\
  lms_guards 10 1 1 = true /\ lms_reads 1 1 = [0; -1; 1] /\
  lms_guards 10 2 9 = true /\ lms_reads 2 9 = [8; 6; 10] /\
  let data := [3; 1; 3; 1; 3; 1; 3; 1; 3; 1]%float in
  let cell (before : float) :=
    mtx_get (fun _ => 0%float)
      (mdata (calc_lms (ex_consts 0.5 2)
                (mkEnv (fun _ => before) (fun _ => 0%float) (fun _ => 0%float)
                       (fun _ => 0%float) (fun _ => 0) (fun _ => 0))
                (malloc_mtx 0 4 10) data)) 1 1 in
  cell 0%float = 0%float /\ cell 5%float = 1%float.
Proof. vm_compute. repeat (apply conj); reflexivity. Qed.

(** C3 (as stated) fails.  On the window [ex_window], with the same
    constants and the same memory, the two sequences of [rand()]
    values give scalograms with the same zero cells, the same lambda,
    and different peak sets: the noise values enter sigma, and sigma
    decides the peaks. *)
Lemma ampd_peak_set_depends_on_draws :
  let run (rand : nat -> Z) :=
    run_window (ex_consts 0.5 2) (ex_env 0 rand) ex_window 8 in
  ampd_lms (run ex_draws1) =
    [[2; 2; 2; 2; 2; 2; 2; 2]; [2; 2; 2; 0; 2; 2; 2; 0];
     [1; 1; 0; 0; 1; 1; 1; 0]]%float /\
  ampd_lms (run ex_draws2) =
    [[1; 1; 1; 1; 1; 1; 1; 1]; [2; 2; 2; 0; 2; 2; 2; 0];
     [1; 1; 0; 0; 1; 1; 1; 0]]%float /\
  ampd_gamma (run ex_draws1) = [16; 12; 5]%float /\
  ampd_gamma (run ex_draws2) = [8; 12; 5]%float /\
  ampd_lambda (run ex_draws1) = 2 /\
  ampd_lambda (run ex_draws2) = 2 /\
  ampd_sigma (run ex_draws1) = [0; 0; 0; 2; 0; 0; 0; 2]%float /\
  ampd_sigma (run ex_draws2) = [1; 1; 1; 1; 1; 1; 1; 1]%float /\
  ampd_peaks (run ex_draws1) = [4] /\
  ampd_peaks (run ex_draws2) = [] /\
  ampd_peaks (run ex_draws1) <> ampd_peaks (run ex_draws2).
Proof.
  vm_compute. repeat (apply conj); try reflexivity. discriminate.
Qed.

(** ** linear_fit inside ampd *)

(** When [linear_fit] gives up on a zero denominator it stores 0 in
    [a], [b] and [r]. *)
Lemma linear_fit_failed (oob : Z -> float) (data : list float) (n : Z)
    (ts : float) :
  fit_ret (linear_fit oob data n ts) = -1 ->
  linear_fit oob data n ts = mkFit (-1) 0 0 0.
Proof.
  unfold linear_fit.
  destruct (fit_denom n _ =? 0)%float; simpl; [reflexivity | discriminate].
Qed.

(** [ampd] stops the window exactly when [r] is NaN. *)
Lemma ampd_aborts_on_nan (c : Consts) (e : Env) (data : list float) (n : Z)
    (lms : Mtx) (gamma sigma : list float) (peaks : list Z) :
  is_nan (fit_r (linear_fit (junk_data e) data n (TIMESTEP_DEFAULT c))) = true ->
  ampd_ret (ampd c e data n lms gamma sigma peaks) = -1.
Proof. intros Hnan. unfold ampd. rewrite Hnan. reflexivity. Qed.

(** A window that reaches detection ends with a peak count between 0
    and [n], never with the error value -1. *)
Lemma ampd_detect_counts (c : Consts) (e : Env) (data : list float) (n : Z)
    (lms : Mtx) (gamma sigma : list float) (peaks : list Z)
    (fit : fit_result) :
  0 <= n <= INT_MAX -> Z.of_nat (length peaks) = n ->
  0 <= ampd_ret (ampd_detect c e data n lms gamma sigma peaks fit) <= n.
Proof.
  intros Hn Hlen. unfold ampd_detect. cbv zeta. simpl ampd_ret.
  match goal with
  | |- 0 <= pk_n (find_peaks c e ?sg n peaks) <= n =>
      destruct (find_peaks_inv c e sg n peaks Hn Hlen) as (Hj & Hnp & _)
  end.
  lia.
Qed.

(** C8 (what the program does).  Whenever [linear_fit] fails on a zero
    denominator (it returns -1), [ampd] does not stop: [r] was set to
    0, which is not NaN, and the window goes through detrending (with
    [a = b = 0]) and detection. *)
Theorem ampd_continues_after_failed_fit (c : Consts) (e : Env)
    (data : list float) (n : Z) (lms : Mtx) (gamma sigma : list float)
    (peaks : list Z) :
  fit_ret (linear_fit (junk_data e) data n (TIMESTEP_DEFAULT c)) = -1 ->
  ampd c e data n lms gamma sigma peaks =
    ampd_detect c e data n lms gamma sigma peaks (mkFit (-1) 0 0 0).
Proof.
  intros Hret. unfold ampd.
  rewrite (linear_fit_failed _ _ _ _ Hret). reflexivity.
Qed.

Lemma ampd_continues_after_failed_fit_witness :
  let c := ex_consts 0.5 2 in
  let e := ex_env 0 (fun _ => 0) in
  ampd c e [1%float] 1 (malloc_mtx 0 (-1) 1) [] [0%float] [0] =
    ampd_detect c e [1%float] 1 (malloc_mtx 0 (-1) 1) [] [0%float] [0]
      (mkFit (-1) 0 0 0).
Proof.
  intros c e.
  apply (ampd_continues_after_failed_fit c e [1%float] 1).
  vm_compute. reflexivity.
Defined.

(** C9 (what the program does).  On the four samples 0, 1, 2, 3 with
    [ts = 4] (so [t_i = i]) the samples lie on the line [y = t], whose
    residuals are all zero; [linear_fit] succeeds and returns a slope
    above 1.40625 and an intercept below -4.125, a line with a strictly
    larger sum of squared residuals. *)
Theorem linear_fit_not_least_squares :
  let oob := fun _ : Z => 0%float in
  let data := [0; 1; 2; 3]%float in
  let fit := linear_fit oob data 4 4 in
  fit_ret fit = 0 /\
  (1.40625 <? fit_a fit)%float = true /\
  (fit_b fit <? -4.125)%float = true /\
  (sum_sq_residuals oob data 4 4 1 0 =? 0)%float = true /\
  (sum_sq_residuals oob data 4 4 1 0
     <? sum_sq_residuals oob data 4 4 (fit_a fit) (fit_b fit))%float = true.
Proof. vm_compute. repeat (apply conj); reflexivity. Qed.

(** ** The batch loop *)

Lemma double_to_int_range (x : float) :
  INT_MIN <= double_to_int x <= INT_MAX.
Proof.
  unfold double_to_int.
  destruct (Prim2SF x) as [s | s | | s m ex];
    try (unfold INT_MIN, INT_MAX; lia).
  cbv zeta.
  match goal with
  | |- context [if ?b then _ else _] => destruct b eqn:Hb
  end.
  - apply andb_true_iff in Hb. destruct Hb as [H1 H2].
    apply Z.leb_le in H1. apply Z.leb_le in H2. lia.
  - unfold INT_MIN, INT_MAX. lia.
Qed.

Lemma batch_loop_S (engine : Z -> Z -> Z) (data_buf n_ovlap cycles : Z)
    (overlap : float) (todo : nat) (i : Z) (st : batch_state) :
  batch_loop engine data_buf n_ovlap cycles overlap (S todo) i st =
    if (TESTING =? 1) && (i >? 0) then st
    else if i =? cycles - 1 then st
    else
      batch_loop engine data_buf n_ovlap cycles overlap todo (i + 1)
        (mkBatch
           (wrap32 (sum_n_peaks st
                    + peak_share (engine (i * (data_buf - n_ovlap)) data_buf)
                        overlap))
           (engine_calls st ++ [(i * (data_buf - n_ovlap), data_buf)])).
Proof. reflexivity. Qed.

(** The loop stops at the second turn at the latest, and at the first
    when there is one cycle. *)
Lemma batch_loop_unfold (engine : Z -> Z -> Z) (data_buf n_ovlap cycles : Z)
    (overlap : float) (todo : nat) :
  batch_loop engine data_buf n_ovlap cycles overlap todo 0 (mkBatch 0 []) =
    match todo with
    | O => mkBatch 0 []
    | S _ =>
        if 0 =? cycles - 1 then mkBatch 0 []
        else mkBatch (peak_share (engine 0 data_buf) overlap) [(0, data_buf)]
    end.
Proof.
  destruct todo as [| todo]; [reflexivity |].
  rewrite batch_loop_S.
  replace ((TESTING =? 1) && (0 >? 0)) with false by reflexivity.
  destruct (0 =? cycles - 1); [reflexivity |].
  replace (0 * (data_buf - n_ovlap)) with 0 by lia.
  replace (sum_n_peaks (mkBatch 0 [])) with 0 by reflexivity.
  replace (engine_calls (mkBatch 0 []) ++ [(0, data_buf)])
    with [(0, data_buf)] by reflexivity.
  rewrite Z.add_0_l, wrap32_id by apply double_to_int_range.
  destruct todo as [| todo]; [reflexivity |].
  rewrite batch_loop_S.
  replace ((TESTING =? 1) && (0 + 1 >? 0)) with true by reflexivity.
  reflexivity.
Qed.

(** Whatever the series and the configuration, the engine is called
    on the window at origin 0, or not at all. *)
Lemma main_batches_calls (engine : Z -> Z -> Z) (datalen data_buf : Z)
    (overlap : float) :
  engine_calls (main_batches engine datalen data_buf overlap) = [] \/
  engine_calls (main_batches engine datalen data_buf overlap) = [(0, data_buf)].
Proof.
  unfold main_batches. rewrite batch_loop_unfold.
  destruct (Z.to_nat _); [left; reflexivity |].
  destruct (0 =? _); [left | right]; reflexivity.
Qed.

(** C1 (what the program does).  A series of 1000 samples, windows of
    200 and an overlap of 0.5 give a stride of 100 and 10 cycles, and
    the engine is called once, on the window at origin 0; a series of
    100 samples gives one cycle and no call at all. *)
Theorem main_batches_stops_after_first_window (engine : Z -> Z -> Z) :
  n_ovlap_of 200 0.5 = 100 /\
  cycles_of 1000 200 100 = 10 /\
  engine_calls (main_batches engine 1000 200 0.5) = [(0, 200)] /\
  cycles_of 100 200 100 = 1 /\
  engine_calls (main_batches engine 100 200 0.5) = [].
Proof. vm_compute. repeat (apply conj); reflexivity. Qed.

(** C2 (as stated) fails.  With an overlap of 0.5 and a first window
    of 3 peaks the total becomes 1: the cast to [int] cuts 1.5 down,
    where rounding gives 2.  Likewise on a series whose first window
    is [ex_window] (one peak found) with an overlap of 0.25: the total
    is 0, where rounding 0.75 gives 1. *)
Lemma main_batches_share_is_not_rounded :
  let engine := fun _ _ : Z => 3 in
  let ampd_engine := fun (_ : Z) (n : Z) =>
    ampd_ret (run_window (ex_consts 0.5 2) (ex_env 0 ex_draws1) ex_window n) in
  sum_n_peaks (main_batches engine 1000 200 0.5) = 1 /\
  round_half_away (of_int 3 * (1 - 0.5))%float = 2 /\
  sum_n_peaks (main_batches engine 1000 200 0.5)
    <> 0 + round_half_away (of_int 3 * (1 - 0.5))%float /\
  engine_calls (main_batches ampd_engine 16 8 0.25) = [(0, 8)] /\
  ampd_engine 0 8 = 1 /\
  sum_n_peaks (main_batches ampd_engine 16 8 0.25) = 0 /\
  round_half_away (of_int 1 * (1 - 0.25))%float = 1.
Proof.
  vm_compute. repeat (apply conj); try reflexivity. discriminate.
Qed.

(** C2 (as amended).  The total [main] reports is the sum, over the
    windows the engine was called on, of [(int)(n_peaks * (1.0 -
    overlap))]: the product cut toward zero by the cast. *)
Theorem main_batches_total_is_sum_of_truncated_shares (engine : Z -> Z -> Z)
    (datalen data_buf : Z) (overlap : float) :
  let st := main_batches engine datalen data_buf overlap in
  sum_n_peaks st = shares_total engine overlap (engine_calls st).
Proof.
  unfold main_batches. cbv zeta. rewrite batch_loop_unfold.
  destruct (Z.to_nat _); [reflexivity |].
  destruct (0 =? _); simpl; lia.
Qed.

(** The cast cuts toward zero, on either side of it. *)
Lemma double_to_int_truncates :
  double_to_int 1.5 = 1 /\ double_to_int (-1.5) = -1 /\
  double_to_int 2 = 2 /\ double_to_int 0.75 = 0 /\
  peak_share 3 0.5 = 1 /\ peak_share 5 0.25 = 3 /\ peak_share (-1) 0.5 = 0.
Proof. vm_compute. repeat (apply conj); reflexivity. Qed.

(** * Further properties of the code *)

(** ** NaN and the special values of binary64 *)

Lemma SF_is_nan (x : float) : Prim2SF x = S754_nan -> is_nan x = true.
Proof.
  intros H. unfold is_nan. rewrite FloatAxioms.eqb_spec, H. reflexivity.
Qed.

Lemma is_nan_SF (x : float) : is_nan x = true -> Prim2SF x = S754_nan.
Proof.
  unfold is_nan. rewrite FloatAxioms.eqb_spec. unfold SFeqb.
  destruct (Prim2SF x) as [[]|[]| |[] m e]; simpl; try discriminate;
    try reflexivity;
    rewrite Z.compare_refl, Pos.compare_cont_refl; discriminate.
Qed.

Lemma nan_add_r (x y : float) : is_nan y = true -> is_nan (x + y) = true.
Proof.
  intros H. apply SF_is_nan. rewrite add_spec, (is_nan_SF y H).
  destruct (Prim2SF x); reflexivity.
Qed.

Lemma nan_add_l (x y : float) : is_nan x = true -> is_nan (x + y) = true.
Proof.
  intros H. apply SF_is_nan. rewrite add_spec, (is_nan_SF x H). reflexivity.
Qed.

Lemma nan_sub_l (x y : float) : is_nan x = true -> is_nan (x - y) = true.
Proof.
  intros H. apply SF_is_nan. rewrite sub_spec, (is_nan_SF x H). reflexivity.
Qed.

Lemma nan_mul_r (x y : float) : is_nan y = true -> is_nan (x * y) = true.
Proof.
  intros H. apply SF_is_nan. rewrite mul_spec, (is_nan_SF y H).
  destruct (Prim2SF x); reflexivity.
Qed.

Lemma nan_div_r (x y : float) : is_nan y = true -> is_nan (x / y) = true.
Proof.
  intros H. apply SF_is_nan. rewrite div_spec, (is_nan_SF y H).
  destruct (Prim2SF x); reflexivity.
Qed.

Lemma nan_sqrt (x : float) : is_nan x = true -> is_nan (sqrt x) = true.
Proof.
  intros H. apply SF_is_nan. rewrite sqrt_spec, (is_nan_SF x H). reflexivity.
Qed.

(** The square root of a value below zero is NaN. *)
Lemma sqrt_negative (x : float) : (x <? 0)%float = true -> is_nan (sqrt x) = true.
Proof.
  intros H. apply SF_is_nan. rewrite sqrt_spec.
  rewrite FloatAxioms.ltb_spec in H.
  change (Prim2SF 0) with (S754_zero false) in H.
  destruct (Prim2SF x) as [[]|[]| |[] m e]; simpl in H; try discriminate;
    reflexivity.
Qed.

(** Nothing is below a NaN, and a NaN is below nothing. *)
Lemma flt_nan_r (x y : float) : is_nan y = true -> (x <? y)%float = false.
Proof.
  intros H. rewrite FloatAxioms.ltb_spec, (is_nan_SF y H).
  destruct (Prim2SF x); reflexivity.
Qed.

Lemma flt_nan_l (x y : float) : is_nan x = true -> (x <? y)%float = false.
Proof.
  intros H. rewrite FloatAxioms.ltb_spec, (is_nan_SF x H). reflexivity.
Qed.

(** [0 + |y| / 0] is NaN or plus infinity: it is below nothing. *)
Lemma abs_over_zero_not_below (y tol : float) :
  (0 + abs y / 0 <? tol)%float = false.
Proof.
  rewrite FloatAxioms.ltb_spec, add_spec, div_spec, abs_spec.
  change (Prim2SF 0) with (S754_zero false).
  destruct (Prim2SF y) as [[]|[]| |[] m e], (Prim2SF tol) as [[]|[]| |[] mt et];
    reflexivity.
Qed.

(** ** Two runs of a loop *)

Lemma for_range_rel {S1 S2 : Type} (R : S1 -> S2 -> Prop)
    (body1 : Z -> S1 -> S1) (body2 : Z -> S2 -> S2) :
  forall (count : nat) (lo : Z) (s1 : S1) (s2 : S2),
    R s1 s2 ->
    (forall i t1 t2, lo <= i < lo + Z.of_nat count ->
       R t1 t2 -> R (body1 i t1) (body2 i t2)) ->
    R (for_range lo count body1 s1) (for_range lo count body2 s2).
Proof.
  induction count as [| cnt IH]; intros lo s1 s2 H0 Hstep; simpl for_range.
  - exact H0.
  - apply IH.
    + apply Hstep; [lia | exact H0].
    + intros i t1 t2 Hi. apply Hstep. lia.
Qed.

Lemma for_upto_rel {S1 S2 : Type} (R : S1 -> S2 -> Prop)
    (body1 : Z -> S1 -> S1) (body2 : Z -> S2 -> S2) (n : Z)
    (s1 : S1) (s2 : S2) :
  R s1 s2 ->
  (forall i t1 t2, 0 <= i < n -> R t1 t2 -> R (body1 i t1) (body2 i t2)) ->
  R (for_upto n body1 s1) (for_upto n body2 s2).
Proof.
  intros H0 Hstep. unfold for_upto. apply for_range_rel; [exact H0 |].
  intros i t1 t2 Hi. apply Hstep. lia.
Qed.

(** ** linear_fit: what the samples can and cannot change *)

(** The denominator test of [linear_fit] reads the length of the
    window and the time step only: two windows of the same length fail
    together or succeed together, whatever their samples. *)
Theorem linear_fit_failure_ignores_samples (oob1 oob2 : Z -> float)
    (data1 data2 : list float) (n : Z) (ts : float) :
  fit_ret (linear_fit oob1 data1 n ts) = fit_ret (linear_fit oob2 data2 n ts).
Proof.
  unfold linear_fit, fit_denom.
  assert (Hsums :
    (fun s1 s2 => sumx s1 = sumx s2 /\ sumx2 s1 = sumx2 s2)
      (for_upto n (linear_fit_step oob1 data1 n ts) fit_sums0)
      (for_upto n (linear_fit_step oob2 data2 n ts) fit_sums0)).
  { apply for_upto_rel with
      (R := fun s1 s2 => sumx s1 = sumx s2 /\ sumx2 s1 = sumx2 s2).
    - split; reflexivity.
    - intros i t1 t2 _ [Hx Hx2]. unfold linear_fit_step. simpl.
      rewrite Hx, Hx2. split; reflexivity. }
  destruct Hsums as [Hx Hx2]. rewrite Hx, Hx2.
  match goal with
  | |- context [if ?b then _ else _] => destruct b
  end; reflexivity.
Qed.

(** Once a sample below zero went through the loop of [linear_fit],
    the sum of the square roots of the samples is NaN. *)
Lemma linear_fit_sumy2_nan (oob : Z -> float) (data : list float)
    (n i0 : Z) (ts : float) :
  0 <= i0 < n ->
  (rd oob data i0 <? 0)%float = true ->
  is_nan (sumy2 (for_upto n (linear_fit_step oob data n ts) fit_sums0)) = true.
Proof.
  intros Hi0 Hneg.
  assert (Hinv :
    (fun m s => i0 < m -> is_nan (sumy2 s) = true) n
      (for_upto n (linear_fit_step oob data n ts) fit_sums0)).
  { apply for_upto_inv with
      (P := fun m s => i0 < m -> is_nan (sumy2 s) = true); [lia | lia |].
    intros i s Hi Hs Hlt. unfold linear_fit_step. simpl sumy2.
    destruct (Z.eq_dec i i0) as [-> | Hne].
    - apply nan_add_r, sqrt_negative, Hneg.
    - apply nan_add_l, Hs. lia. }
  apply Hinv. lia.
Qed.

(** A window with a sample below zero, on which the denominator test
    passes, has a NaN [r]. *)
Lemma linear_fit_negative_sample (oob : Z -> float) (data : list float)
    (n i0 : Z) (ts : float) :
  0 <= i0 < n ->
  (rd oob data i0 <? 0)%float = true ->
  fit_ret (linear_fit oob data n ts) = 0 ->
  is_nan (fit_r (linear_fit oob data n ts)) = true.
Proof.
  intros Hi0 Hneg. unfold linear_fit.
  pose proof (linear_fit_sumy2_nan oob data n i0 ts Hi0 Hneg) as Hnan.
  destruct (fit_denom n _ =? 0)%float; simpl; [discriminate |].
  intros _. apply nan_div_r, nan_sqrt, nan_mul_r, nan_sub_l, Hnan.
Qed.

(** [ampd] returns -1 on every window that holds a sample below zero
    (and passes the denominator test of [linear_fit]): the square root
    of that sample makes [r] NaN. *)
Theorem ampd_rejects_negative_sample (c : Consts) (e : Env)
    (data : list float) (n i0 : Z) (lms : Mtx) (gamma sigma : list float)
    (peaks : list Z) :
  0 <= i0 < n ->
  (rd (junk_data e) data i0 <? 0)%float = true ->
  fit_ret (linear_fit (junk_data e) data n (TIMESTEP_DEFAULT c)) = 0 ->
  ampd_ret (ampd c e data n lms gamma sigma peaks) = -1 /\
  ampd_peaks (ampd c e data n lms gamma sigma peaks) = [].
Proof.
  intros Hi0 Hneg Hret. unfold ampd.
  rewrite (linear_fit_negative_sample _ _ _ _ _ Hi0 Hneg Hret).
  split; reflexivity.
Qed.

Lemma ampd_rejects_negative_sample_witness :
  let c := ex_consts 0.5 2 in
  let e := ex_env 0 (fun _ => 0) in
  let data := [1; -1; 2; 3]%float in
  ampd_ret (ampd c e data 4 (malloc_mtx 0 1 4) [0%float]
              [0; 0; 0; 0]%float [0; 0; 0; 0]) = -1 /\
  ampd_peaks (ampd c e data 4 (malloc_mtx 0 1 4) [0%float]
                [0; 0; 0; 0]%float [0; 0; 0; 0]) = [].
Proof.
  intros c e data.
  apply (ampd_rejects_negative_sample c e data 4 1).
  - lia.
  - vm_compute. reflexivity.
  - vm_compute. reflexivity.
Defined.

(** ** linear_detrend *)

(** [linear_detrend] after the samples below [m]: they hold their
    detrended values, the others are untouched. *)
Definition detrend_inv (oob : Z -> float) (data : list float) (n : Z)
    (ts a b : float) (m : Z) (d : list float) : Prop :=
  length d = length data /\
  (forall i, 0 <= i < m ->
     rd oob d i = to_f32 (rd oob data i - trend_at n ts a b i)) /\
  (forall i, m <= i -> rd oob d i = rd oob data i).

(** [linear_detrend] replaces every sample of the window by the
    [float] nearest to the sample minus the trend line at its index,
    each from the original sample, and leaves what follows the window
    alone. *)
Theorem linear_detrend_cells (oob : Z -> float) (data : list float) (n : Z)
    (ts a b : float) :
  0 <= n <= Z.of_nat (length data) ->
  let d := linear_detrend oob data n ts a b in
  length d = length data /\
  (forall i, 0 <= i < n ->
     rd oob d i = to_f32 (rd oob data i - trend_at n ts a b i)) /\
  (forall i, n <= i -> rd oob d i = rd oob data i).
Proof.
  intros Hn d. unfold d, linear_detrend.
  apply for_upto_inv with (P := detrend_inv oob data n ts a b); [lia | |].
  - split; [reflexivity |]. split; [intros; lia | reflexivity].
  - intros m t Hm (Hlen & Hdone & Hrest).
    split; [rewrite length_wr; exact Hlen |]. split.
    + intros i Hi. destruct (Z.eq_dec i m) as [-> | Hne].
      * rewrite rd_wr_same by lia. rewrite Hrest by lia. reflexivity.
      * rewrite rd_wr_other by lia. apply Hdone. lia.
    + intros i Hi. rewrite rd_wr_other by lia. apply Hrest. lia.
Qed.

Lemma linear_detrend_cells_witness :
  let oob := fun _ : Z => 0%float in
  let d := linear_detrend oob ex_window 8 1 0.5 1 in
  length d = length ex_window /\
  (forall i, 0 <= i < 8 ->
     rd oob d i = to_f32 (rd oob ex_window i - trend_at 8 1 0.5 1 i)) /\
  (forall i, 8 <= i -> rd oob d i = rd oob ex_window i).
Proof.
  intros oob.
  apply (linear_detrend_cells oob ex_window 8 1 0.5 1).
  simpl. lia.
Defined.

(** ** argmin_minind on a vector that starts with NaN *)

(** When [data[0]] is NaN, [argmin_minind] returns 0 whatever the
    other cells hold: no cell compares below a NaN minimum. *)
Theorem argmin_minind_nan_first (oob : Z -> float) (data : list float)
    (n : Z) :
  is_nan (rd oob data 0) = true -> argmin_minind oob data n = 0.
Proof.
  intros Hnan. unfold argmin_minind.
  destruct (Z_le_dec n 0) as [Hle | Hgt];
    [rewrite for_upto_nothing by exact Hle; reflexivity |].
  assert (Hinv :
    (fun (_ : Z) (st : float * Z) => st = (rd oob data 0, 0)) n
      (for_upto n (argmin_step oob data) (rd oob data 0, 0))).
  { apply for_upto_inv with
      (P := fun (_ : Z) (st : float * Z) => st = (rd oob data 0, 0));
      [lia | reflexivity |].
    intros i st _ ->. unfold argmin_step.
    rewrite flt_nan_r by exact Hnan. reflexivity. }
  simpl in Hinv. rewrite Hinv. reflexivity.
Qed.

Lemma argmin_minind_nan_first_witness :
  argmin_minind (fun _ => 0%float) [nan; 3; 1; 2]%float 4 = 0.
Proof.
  apply (argmin_minind_nan_first (fun _ => 0%float) [nan; 3; 1; 2]%float 4).
  vm_compute. reflexivity.
Defined.

(** ** col_stddev_lms *)

(** [col_stddev_lms] fills the first [cols] cells of [sigma], cell [i]
    with the dispersion of column [i], and keeps the length of
    [sigma]. *)
Lemma col_stddev_lms_cells (e : Env) (lms : Mtx) (sigma : list float)
    (lambda : Z) :
  0 <= cols lms <= Z.of_nat (length sigma) ->
  length (col_stddev_lms e lms sigma lambda) = length sigma /\
  forall i, 0 <= i < cols lms ->
    rd (junk_sigma e) (col_stddev_lms e lms sigma lambda) i =
      col_stddev_at e lms lambda i.
Proof.
  intros Hn. unfold col_stddev_lms.
  apply for_upto_inv with
    (P := fun m s => length s = length sigma /\
            forall i, 0 <= i < m ->
              rd (junk_sigma e) s i = col_stddev_at e lms lambda i);
    [lia | |].
  - split; [reflexivity | intros; lia].
  - intros m s Hm [Hlen Hdone]. split; [rewrite length_wr; exact Hlen |].
    intros i Hi. destruct (Z.eq_dec i m) as [-> | Hne].
    + apply rd_wr_same. lia.
    + rewrite rd_wr_other by lia. apply Hdone. lia.
Qed.

(** With [lambda <= 0] both loops over the rows are empty: every
    sigma of the window is exactly 0, whatever the scalogram holds. *)
Theorem col_stddev_lms_no_rows (e : Env) (lms : Mtx) (sigma : list float)
    (lambda i : Z) :
  lambda <= 0 ->
  0 <= i < cols lms ->
  cols lms <= Z.of_nat (length sigma) ->
  rd (junk_sigma e) (col_stddev_lms e lms sigma lambda) i = 0%float.
Proof.
  intros Hl Hi Hlen.
  destruct (col_stddev_lms_cells e lms sigma lambda ltac:(lia)) as [_ Hcells].
  rewrite Hcells by exact Hi. unfold col_stddev_at.
  rewrite !for_upto_nothing by exact Hl. reflexivity.
Qed.

Lemma col_stddev_lms_no_rows_witness :
  rd (fun _ => 0%float)
     (col_stddev_lms (ex_env 0 (fun _ => 0)) (malloc_mtx 7 3 8)
        [9; 9; 9; 9; 9; 9; 9; 9]%float 0) 5 = 0%float.
Proof.
  apply (col_stddev_lms_no_rows (ex_env 0 (fun _ => 0)) (malloc_mtx 7 3 8)
           [9; 9; 9; 9; 9; 9; 9; 9]%float 0 5).
  - lia.
  - simpl. lia.
  - simpl. lia.
Defined.

(** With [lambda = 1] the dispersion divides by [l - 1.0 = 0]: the
    cell is NaN or infinite, and is below no tolerance. *)
Lemma col_stddev_at_one_row (e : Env) (lms : Mtx) (i : Z) (tol : float) :
  (col_stddev_at e lms 1 i <? tol)%float = false.
Proof.
  unfold col_stddev_at.
  change (for_upto 1 ?f ?s) with (f 0 s).
  cbv beta.
  change (of_int 1 - 1)%float with 0%float.
  apply abs_over_zero_not_below.
Qed.

(** ** find_peaks without a candidate *)

(** When no sigma of the window is below the tolerance, [find_peaks]
    counts no peak and writes nothing to [peaks]. *)
Theorem find_peaks_no_candidate (c : Consts) (e : Env) (sigma : list float)
    (n : Z) (peaks : list Z) :
  (forall i, 0 <= i < n ->
     (rd (junk_sigma e) sigma i <? TOLERANCE c)%float = false) ->
  find_peaks c e sigma n peaks = mkPeaks peaks 0 0.
Proof.
  intros Hnone. unfold find_peaks.
  destruct (Z_le_dec n 0) as [Hle | Hgt];
    [rewrite for_upto_nothing by exact Hle; reflexivity |].
  apply (for_upto_inv (fun (_ : Z) st => st = mkPeaks peaks 0 0)); [lia | reflexivity |].
  intros i st Hi ->. unfold find_peaks_step. rewrite Hnone by exact Hi.
  reflexivity.
Qed.

Lemma find_peaks_no_candidate_witness :
  find_peaks (ex_consts 0.5 2) (ex_env 0 (fun _ => 0))
    [1; 2; 1]%float 3 [7; 7; 7] = mkPeaks [7; 7; 7] 0 0.
Proof.
  apply (find_peaks_no_candidate (ex_consts 0.5 2) (ex_env 0 (fun _ => 0))
           [1; 2; 1]%float 3 [7; 7; 7]).
  intros i Hi.
  assert (Hc : i = 0 \/ i = 1 \/ i = 2) by lia.
  destruct Hc as [-> | [-> | ->]]; vm_compute; reflexivity.
Defined.

(** ** ampd as a whole *)

(** [ampd] returns -1 and no peak when [r] is NaN; otherwise it
    returns a count between 0 and [n], the length of the peak set. *)
Theorem ampd_return_value (c : Consts) (e : Env) (data : list float) (n : Z)
    (lms : Mtx) (gamma sigma : list float) (peaks : list Z) :
  0 <= n <= INT_MAX ->
  Z.of_nat (length peaks) = n ->
  let res := ampd c e data n lms gamma sigma peaks in
  let r := fit_r (linear_fit (junk_data e) data n (TIMESTEP_DEFAULT c)) in
  (is_nan r = true -> ampd_ret res = -1 /\ ampd_peaks res = []) /\
  (is_nan r = false ->
     0 <= ampd_ret res <= n /\
     Z.of_nat (length (ampd_peaks res)) = ampd_ret res).
Proof.
  intros Hn Hlen res r. unfold res, r, ampd. split; intros Hnan; rewrite Hnan.
  - split; reflexivity.
  - unfold ampd_detect. cbv zeta. simpl ampd_ret. simpl ampd_peaks.
    match goal with
    | |- context [find_peaks c e ?sg n peaks] =>
        destruct (find_peaks_inv c e sg n peaks Hn Hlen)
          as (Hj & Hnp & Hbuf & _);
        set (st := find_peaks c e sg n peaks) in *
    end.
    split; [lia |]. unfold peak_set. rewrite length_take. lia.
Qed.

Lemma ampd_return_value_witness :
  let c := ex_consts 0.5 2 in
  let e := ex_env 0 ex_draws1 in
  let res := ampd c e ex_window 8 (malloc_mtx 0 3 8) [0; 0; 0]%float
               [0; 0; 0; 0; 0; 0; 0; 0]%float [0; 0; 0; 0; 0; 0; 0; 0] in
  let r := fit_r (linear_fit (junk_data e) ex_window 8 (TIMESTEP_DEFAULT c)) in
  (is_nan r = true -> ampd_ret res = -1 /\ ampd_peaks res = []) /\
  (is_nan r = false ->
     0 <= ampd_ret res <= 8 /\
     Z.of_nat (length (ampd_peaks res)) = ampd_ret res).
Proof.
  intros c e.
  apply (ampd_return_value c e ex_window 8 (malloc_mtx 0 3 8) [0; 0; 0]%float
           [0; 0; 0; 0; 0; 0; 0; 0]%float [0; 0; 0; 0; 0; 0; 0; 0]).
  - unfold INT_MAX. lia.
  - reflexivity.
Defined.

(** When the row sums select [lambda = 1], [ampd] finds no peak at
    all: every sigma is a division by zero. *)
Theorem ampd_lambda_one_finds_nothing (c : Consts) (e : Env)
    (data : list float) (n : Z) (lms : Mtx) (gamma sigma : list float)
    (peaks : list Z) :
  cols lms = n ->
  n <= Z.of_nat (length sigma) ->
  is_nan (fit_r (linear_fit (junk_data e) data n (TIMESTEP_DEFAULT c))) = false ->
  ampd_lambda (ampd c e data n lms gamma sigma peaks) = 1 ->
  ampd_ret (ampd c e data n lms gamma sigma peaks) = 0 /\
  ampd_peaks (ampd c e data n lms gamma sigma peaks) = [].
Proof.
  intros Hcols Hlen Hnan. unfold ampd. rewrite Hnan.
  unfold ampd_detect. cbv zeta. simpl ampd_lambda. simpl ampd_ret.
  simpl ampd_peaks. intros Hlam. rewrite Hlam.
  rewrite find_peaks_no_candidate; [split; reflexivity |].
  intros i Hi.
  match goal with
  | |- context [col_stddev_lms e ?m sigma 1] =>
      destruct (col_stddev_lms_cells e m sigma 1) as [_ Hcells];
        [change (cols m) with (cols lms); lia |];
      rewrite Hcells by (change (cols m) with (cols lms); lia)
  end.
  apply col_stddev_at_one_row.
Qed.

Lemma ampd_lambda_one_finds_nothing_witness :
  let c := ex_consts 0.5 2 in
  let e := ex_env 0 (fun _ => 0) in
  let data := [1; 3; 1; 3; 1; 3]%float in
  ampd_ret (ampd c e data 6 (malloc_mtx 0 2 6) [0; 0]%float
              [0; 0; 0; 0; 0; 0]%float [0; 0; 0; 0; 0; 0]) = 0 /\
  ampd_peaks (ampd c e data 6 (malloc_mtx 0 2 6) [0; 0]%float
                [0; 0; 0; 0; 0; 0]%float [0; 0; 0; 0; 0; 0]) = [].
Proof.
  intros c e data.
  apply (ampd_lambda_one_finds_nothing c e data 6 (malloc_mtx 0 2 6)).
  - reflexivity.
  - simpl. lia.
  - vm_compute. reflexivity.
  - vm_compute. reflexivity.
Defined.

(** ** calc_lms as a whole *)

Lemma calc_lms_loops_inv (c : Consts) (e : Env) (data : list float)
    (n l : Z) (m0 : list (list float)) :
  mtx_wf l n m0 -> 0 <= l -> 0 <= n ->
  lms_inv c e data n l n 0 (calc_lms_loops c e data n l (m0, O)).
Proof.
  intros Hwf Hl Hn. unfold calc_lms_loops.
  apply for_upto_inv
    with (P := fun i0 => lms_inv c e data n l i0 0); [exact Hn | |].
  - split; [exact Hwf |]. split; [simpl; lia |]. intros; lia.
  - intros i0 t Hi0. apply calc_lms_column_inv; lia.
Qed.

(** [calc_lms] keeps the dimensions of the scalogram, calls [rand()]
    once per cell ([rows * cols] calls), and writes every cell: cell
    [(k, i)] from the samples and from call number [i * rows + k]. *)
Theorem calc_lms_scalogram (c : Consts) (e : Env) (lms : Mtx)
    (data : list float) :
  mtx_wf (rows lms) (cols lms) (mdata lms) ->
  0 <= rows lms -> 0 <= cols lms ->
  mtx_wf (rows lms) (cols lms) (mdata (calc_lms c e lms data)) /\
  Z.of_nat (snd (calc_lms_loops c e data (cols lms) (rows lms)
                   (mdata lms, O))) = cols lms * rows lms /\
  forall k i, 0 <= k < rows lms -> 0 <= i < cols lms ->
    mtx_get (junk_lms e) (mdata (calc_lms c e lms data)) k i =
      lms_cell c (junk_data e) data (cols lms) k i
        (draws e (Z.to_nat (i * rows lms + k))).
Proof.
  intros Hwf Hl Hn.
  pose proof (calc_lms_loops_inv c e data (cols lms) (rows lms) (mdata lms)
                Hwf Hl Hn) as Hinv.
  unfold calc_lms. simpl mdata.
  destruct (calc_lms_loops c e data (cols lms) (rows lms) (mdata lms, O))
    as [m calls].
  destruct Hinv as (Hwf' & Hcalls & Hcells). simpl fst. simpl snd.
  split; [exact Hwf' |]. split; [lia |].
  intros k i Hk Hi. apply Hcells; lia.
Qed.

Lemma calc_lms_scalogram_witness :
  let c := ex_consts 0.5 2 in
  let e := ex_env 0 ex_draws1 in
  let lms := malloc_mtx 0 3 8 in
  mtx_wf 3 8 (mdata (calc_lms c e lms ex_window)) /\
  Z.of_nat (snd (calc_lms_loops c e ex_window 8 3 (mdata lms, O))) = 8 * 3 /\
  forall k i, 0 <= k < 3 -> 0 <= i < 8 ->
    mtx_get (junk_lms e) (mdata (calc_lms c e lms ex_window)) k i =
      lms_cell c (junk_data e) ex_window 8 k i
        (draws e (Z.to_nat (i * 3 + k))).
Proof.
  intros c e lms.
  apply (calc_lms_scalogram c e lms ex_window).
  - apply malloc_mtx_wf; lia.
  - simpl. lia.
  - simpl. lia.
Defined.

(** The edge policy of [calc_lms]: a cell left of the diagonal
    ([i < k]) or right of [n - k + 1] holds the noise value of its
    call, whatever the samples are. *)
Theorem calc_lms_edge_cells (c : Consts) (e : Env) (lms : Mtx)
    (data : list float) (k i : Z) :
  mtx_wf (rows lms) (cols lms) (mdata lms) ->
  0 <= k < rows lms -> 0 <= i < cols lms ->
  i < k \/ cols lms - k + 1 < i ->
  mtx_get (junk_lms e) (mdata (calc_lms c e lms data)) k i =
    noise c (draws e (Z.to_nat (i * rows lms + k))).
Proof.
  intros Hwf Hk Hi Hedge.
  rewrite calc_lms_cell by assumption. unfold lms_cell.
  destruct (i <? k) eqn:E1; [reflexivity |].
  destruct (i >? cols lms - k + 1) eqn:E2; [reflexivity |].
  apply Z.ltb_ge in E1. rewrite Z.gtb_ltb in E2. apply Z.ltb_ge in E2. lia.
Qed.

Lemma calc_lms_edge_cells_witness :
  let c := ex_consts 0.5 2 in
  let e := ex_env 0 ex_draws1 in
  mtx_get (junk_lms e)
    (mdata (calc_lms c e (malloc_mtx 0 3 8) ex_window)) 2 1 =
    noise c (draws e (Z.to_nat (1 * 3 + 2))).
Proof.
  intros c e.
  apply (calc_lms_edge_cells c e (malloc_mtx 0 3 8) ex_window 2 1).
  - apply malloc_mtx_wf; lia.
  - simpl. lia.
  - simpl. lia.
  - left. lia.
Defined.

(** Among the cells of the window that pass the two guards of
    [calc_lms], the ones whose comparison names a position outside
    [data[0..n-1]] are exactly the first and the last the guards let
    through: [i = k] and [i = n - k + 1]. *)
Theorem lms_reads_outside_iff (n k i : Z) :
  0 <= k -> 0 <= i < n ->
  lms_guards n k i = true ->
  (Exists (fun p => p < 0 \/ n <= p) (lms_reads k i) <->
   i = k \/ i = n - k + 1).
Proof.
  intros Hk Hi Hg. unfold lms_guards in Hg.
  apply andb_true_iff in Hg. destruct Hg as [Hg1 Hg2].
  apply negb_true_iff in Hg1, Hg2.
  apply Z.ltb_ge in Hg1. rewrite Z.gtb_ltb in Hg2. apply Z.ltb_ge in Hg2.
  unfold lms_reads. rewrite !Exists_cons, Exists_nil. lia.
Qed.

Lemma lms_reads_outside_iff_witness :
  Exists (fun p => p < 0 \/ 10 <= p) (lms_reads 2 9) <->
  9 = 2 \/ 9 = 10 - 2 + 1.
Proof.
  apply (lms_reads_outside_iff 10 2 9).
  - lia.
  - lia.
  - reflexivity.
Defined.

(** ** row_sum_lms as a whole *)

Lemma row_sum_lms_done (e : Env) (lms : Mtx) (gamma : list float) :
  0 <= rows lms -> 0 <= cols lms ->
  Z.of_nat (length gamma) = rows lms ->
  row_sums_done e lms (rows lms) (row_sum_lms e lms gamma).
Proof.
  intros Hl Hn Hlen. unfold row_sum_lms.
  apply for_upto_inv with (P := row_sums_done e lms); [exact Hl | |].
  - split; [exact Hlen | intros; lia].
  - intros k1 g Hk1. apply row_sum_lms_one_row; assumption.
Qed.

(** [row_sum_lms] overwrites every cell of [gamma] with the sum of
    its row of the scalogram, taken from 0 in column order; what
    [gamma] held before does not matter, and its length is kept. *)
Theorem row_sum_lms_totals (e : Env) (lms : Mtx) (gamma1 gamma2 : list float) :
  0 <= rows lms -> 0 <= cols lms ->
  Z.of_nat (length gamma1) = rows lms ->
  Z.of_nat (length gamma2) = rows lms ->
  length (row_sum_lms e lms gamma1) = length gamma1 /\
  (forall k, 0 <= k < rows lms ->
     rd (junk_gamma e) (row_sum_lms e lms gamma1) k = row_total e lms k) /\
  row_sum_lms e lms gamma1 = row_sum_lms e lms gamma2.
Proof.
  intros Hl Hn Hlen1 Hlen2.
  destruct (row_sum_lms_done e lms gamma1 Hl Hn Hlen1) as [Hg1 Hrows1].
  destruct (row_sum_lms_done e lms gamma2 Hl Hn Hlen2) as [Hg2 Hrows2].
  split; [lia |]. split; [exact Hrows1 |].
  apply list_eq. intros q.
  destruct (Nat.lt_ge_cases q (length (row_sum_lms e lms gamma1))) as [Hq | Hq].
  - rewrite <- (Nat2Z.id q).
    rewrite (rd_lookup (junk_gamma e)) by lia.
    rewrite (rd_lookup (junk_gamma e)) by lia.
    rewrite Hrows1, Hrows2 by lia. reflexivity.
  - rewrite !lookup_ge_None_2 by lia. reflexivity.
Qed.

Lemma row_sum_lms_totals_witness :
  let e := ex_env 0 ex_draws1 in
  let lms := calc_lms (ex_consts 0.5 2) e (malloc_mtx 0 3 8) ex_window in
  length (row_sum_lms e lms [0; 0; 0]%float) = length [0; 0; 0]%float /\
  (forall k, 0 <= k < 3 ->
     rd (junk_gamma e) (row_sum_lms e lms [0; 0; 0]%float) k
       = row_total e lms k) /\
  row_sum_lms e lms [0; 0; 0]%float = row_sum_lms e lms [7; 8; 9]%float.
Proof.
  intros e lms.
  apply (row_sum_lms_totals e lms [0; 0; 0]%float [7; 8; 9]%float).
  - simpl. lia.
  - simpl. lia.
  - reflexivity.
  - reflexivity.
Defined.

(** ** count_char *)

(** On a file of at most [INT_MAX] bytes, none of them 255,
    [count_char] returns the number of bytes equal to [cc]. *)
Lemma count_char_loop_counts (bytes : list Z) (cc : Z) :
  forall count,
    Forall (fun b => 0 <= b < 255) bytes ->
    0 <= count ->
    count + Z.of_nat (length bytes) <= INT_MAX ->
    count_char_loop bytes cc count =
      count + Z.of_nat (length (filter (fun b => to_schar b = cc) bytes)).
Proof.
  induction bytes as [| b rest IH]; intros count Hall Hc Hmax;
    simpl count_char_loop.
  - simpl. lia.
  - inversion Hall as [| ? ? Hb Hrest]; subst.
    simpl length in Hmax.
    assert (Hne : (to_schar b =? EOF) = false).
    { apply Z.eqb_neq. unfold to_schar, EOF.
      intros Heq.
      assert (Hmod : (b + 128) mod 256 = 127) by lia.
      destruct (Z_lt_dec b 128) as [Hlt | Hge].
      - rewrite Z.mod_small in Hmod by lia. lia.
      - replace (b + 128) with (b - 128 + 1 * 256) in Hmod by lia.
        rewrite Z.mod_add in Hmod by lia.
        rewrite Z.mod_small in Hmod by lia. lia. }
    cbv zeta. rewrite Hne.
    rewrite filter_cons.
    destruct (decide (to_schar b = cc)) as [Heq | Hneq].
    + rewrite (proj2 (Z.eqb_eq _ _) Heq).
      rewrite wrap32_id by (unfold INT_MIN, INT_MAX in *; lia).
      rewrite IH by (assumption || lia). simpl length. lia.
    + rewrite (proj2 (Z.eqb_neq _ _) Hneq).
      rewrite IH by (assumption || lia). lia.
Qed.

Theorem count_char_counts (bytes : list Z) (cc : Z) :
  Forall (fun b => 0 <= b < 255) bytes ->
  Z.of_nat (length bytes) <= INT_MAX ->
  count_char (Some bytes) cc =
    Some (Z.of_nat (length (filter (fun b => to_schar b = cc) bytes))).
Proof.
  intros Hall Hmax. unfold count_char.
  rewrite count_char_loop_counts by (assumption || lia). reflexivity.
Qed.

Lemma count_char_counts_witness :
  count_char (Some [49; 46; 53; 10; 50; 10; 51; 10]) 10 =
    Some (Z.of_nat (length (filter (fun b => to_schar b = 10)
                              [49; 46; 53; 10; 50; 10; 51; 10]))).
Proof.
  apply (count_char_counts [49; 46; 53; 10; 50; 10; 51; 10] 10).
  - repeat constructor; lia.
  - unfold INT_MAX. simpl. lia.
Defined.

(** A byte 255 ends the count like the end of the file: as a [char]
    it equals [EOF], and nothing after it is counted. *)
Theorem count_char_stops_at_byte_255 (before after : list Z) (cc : Z) :
  count_char (Some (before ++ 255 :: after)) cc = count_char (Some before) cc.
Proof.
  unfold count_char. f_equal. generalize 0.
  induction before as [| b rest IH]; intros count; simpl.
  - reflexivity.
  - destruct (to_schar b =? EOF); [reflexivity | apply IH].
Qed.

(** ** fetch_data *)

Lemma lookup_cons_Z {A : Type} (x : A) (l : list A) (z : Z) :
  1 <= z -> (x :: l) !! Z.to_nat z = l !! Z.to_nat (z - 1).
Proof.
  intros Hz. replace (Z.to_nat z) with (S (Z.to_nat (z - 1))) by lia.
  reflexivity.
Qed.

(** What [fetch_loop] does from a state reached after [count] lines:
    cell [j] of the window receives line [ind + j] of the file when
    there is one and it converts, and line [ind + n] goes to the cell
    after the buffer. *)
Lemma fetch_loop_spec (oob : Z -> float) (n ind : Z) :
  0 <= ind -> 0 <= n -> ind + n <= INT_MAX ->
  forall (lines : list (option float)) (st : fetch_state),
    0 <= fd_count st ->
    fd_count st + Z.of_nat (length lines) <= INT_MAX ->
    fd_i st = Z.max 0 (fd_count st - ind) ->
    Z.of_nat (length (fd_data st)) = n ->
    let r := fetch_loop lines n ind st in
    Z.of_nat (length (fd_data r)) = n /\
    (forall j, 0 <= j < n ->
       rd oob (fd_data r) j =
         if j <? fd_i st then rd oob (fd_data st) j
         else match lines !! Z.to_nat (ind + j - fd_count st) with
              | Some (Some v) => v
              | _ => rd oob (fd_data st) j
              end) /\
    fd_spill r =
      fd_spill st ++
        (if fd_i st <=? n
         then match lines !! Z.to_nat (ind + n - fd_count st) with
              | Some (Some v) => [(n, v)]
              | _ => []
              end
         else []).
Proof.
  intros Hind Hn Hmax.
  induction lines as [| l rest IH]; intros st Hc Hlen Hi Hdata; cbv zeta.
  - simpl fetch_loop. split; [exact Hdata |]. split.
    + intros j Hj. rewrite lookup_nil. destruct (j <? fd_i st); reflexivity.
    + rewrite lookup_nil. destruct (fd_i st <=? n); rewrite app_nil_r;
        reflexivity.
  - simpl length in Hlen. simpl fetch_loop.
    rewrite (wrap32_id (ind + n)) by (unfold INT_MIN, INT_MAX in *; lia).
    rewrite (wrap32_id (fd_count st + 1))
      by (unfold INT_MIN, INT_MAX in *; lia).
    destruct (fd_count st <? ind) eqn:Eskip.
    + apply Z.ltb_lt in Eskip.
      specialize (IH (mkFetch (fd_data st) (fd_spill st) (fd_count st + 1)
                        (fd_i st))).
      simpl in IH.
      destruct IH as (Hl & Hcells & Hspill); try lia.
      split; [exact Hl |]. split.
      * intros j Hj. rewrite (Hcells j Hj).
        replace (j <? fd_i st) with false by (symmetry; apply Z.ltb_ge; lia).
        rewrite lookup_cons_Z by lia.
        replace (ind + j - (fd_count st + 1)) with (ind + j - fd_count st - 1)
          by lia.
        reflexivity.
      * rewrite Hspill.
        replace (fd_i st <=? n) with true by (symmetry; apply Z.leb_le; lia).
        rewrite lookup_cons_Z by lia.
        replace (ind + n - (fd_count st + 1)) with (ind + n - fd_count st - 1)
          by lia.
        reflexivity.
    + apply Z.ltb_ge in Eskip.
      destruct (fd_count st >? ind + n) eqn:Estop.
      * rewrite Z.gtb_ltb in Estop. apply Z.ltb_lt in Estop.
        split; [exact Hdata |]. split.
        -- intros j Hj.
           replace (j <? fd_i st) with true by (symmetry; apply Z.ltb_lt; lia).
           reflexivity.
        -- replace (fd_i st <=? n) with false
             by (symmetry; apply Z.leb_gt; lia).
           rewrite app_nil_r. reflexivity.
      * rewrite Z.gtb_ltb in Estop. apply Z.ltb_ge in Estop.
        assert (Hi' : fd_i st = fd_count st - ind) by lia.
        rewrite (wrap32_id (fd_i st + 1))
          by (unfold INT_MIN, INT_MAX in *; lia).
        assert (Hst' : Z.of_nat (length (fd_data (fetch_store st l))) = n /\
                  (forall j, 0 <= j < n ->
                     rd oob (fd_data (fetch_store st l)) j =
                       if j =? fd_i st
                       then match l with
                            | Some v => v
                            | None => rd oob (fd_data st) j
                            end
                       else rd oob (fd_data st) j) /\
                  fd_spill (fetch_store st l) =
                    fd_spill st ++
                      (if fd_i st =? n
                       then match l with Some v => [(n, v)] | None => [] end
                       else [])).
        { unfold fetch_store. destruct l as [v |].
          - destruct ((0 <=? fd_i st)
                      && (fd_i st <? Z.of_nat (length (fd_data st)))) eqn:Ein;
              simpl.
            + apply andb_true_iff in Ein. destruct Ein as [E1 E2].
              apply Z.leb_le in E1. apply Z.ltb_lt in E2.
              split; [rewrite length_wr; exact Hdata |]. split.
              * intros j Hj. destruct (j =? fd_i st) eqn:Ej.
                -- apply Z.eqb_eq in Ej. subst j. apply rd_wr_same. lia.
                -- apply Z.eqb_neq in Ej. apply rd_wr_other. lia.
              * replace (fd_i st =? n) with false
                  by (symmetry; apply Z.eqb_neq; lia).
                rewrite app_nil_r. reflexivity.
            + apply andb_false_iff in Ein.
              assert (Heq : fd_i st = n).
              { destruct Ein as [E | E];
                  [apply Z.leb_gt in E | apply Z.ltb_ge in E]; lia. }
              split; [exact Hdata |]. split.
              * intros j Hj.
                replace (j =? fd_i st) with false
                  by (symmetry; apply Z.eqb_neq; lia).
                reflexivity.
              * rewrite Heq, Z.eqb_refl. reflexivity.
          - split; [exact Hdata |]. split.
            + intros j Hj. destruct (j =? fd_i st); reflexivity.
            + destruct (fd_i st =? n); rewrite app_nil_r; reflexivity. }
        destruct Hst' as (Hl' & Hcells' & Hspill').
        specialize (IH (mkFetch (fd_data (fetch_store st l))
                          (fd_spill (fetch_store st l)) (fd_count st + 1)
                          (fd_i st + 1))).
        simpl in IH.
        destruct IH as (Hl & Hcells & Hspill); try lia.
        split; [exact Hl |]. split.
        -- intros j Hj. rewrite (Hcells j Hj), (Hcells' j Hj).
           destruct (Z_lt_dec j (fd_i st)) as [Hlt | Hge].
           ++ replace (j <? fd_i st + 1) with true
                by (symmetry; apply Z.ltb_lt; lia).
              replace (j <? fd_i st) with true
                by (symmetry; apply Z.ltb_lt; lia).
              replace (j =? fd_i st) with false
                by (symmetry; apply Z.eqb_neq; lia).
              reflexivity.
           ++ replace (j <? fd_i st) with false
                by (symmetry; apply Z.ltb_ge; lia).
              destruct (Z.eq_dec j (fd_i st)) as [Heq | Hne].
              ** replace (j <? fd_i st + 1) with true
                   by (symmetry; apply Z.ltb_lt; lia).
                 rewrite (proj2 (Z.eqb_eq _ _) Heq).
                 replace (ind + j - fd_count st) with 0 by lia.
                 simpl. destruct l; reflexivity.
              ** replace (j <? fd_i st + 1) with false
                   by (symmetry; apply Z.ltb_ge; lia).
                 replace (j =? fd_i st) with false
                   by (symmetry; apply Z.eqb_neq; lia).
                 rewrite lookup_cons_Z by lia.
                 replace (ind + j - (fd_count st + 1))
                   with (ind + j - fd_count st - 1) by lia.
                 reflexivity.
        -- rewrite Hspill, Hspill'.
           replace (fd_i st <=? n) with true
             by (symmetry; apply Z.leb_le; lia).
           destruct (Z.eq_dec (fd_i st) n) as [Heq | Hne].
           ++ rewrite (proj2 (Z.eqb_eq _ _) Heq).
              replace (fd_i st + 1 <=? n) with false
                by (symmetry; apply Z.leb_gt; lia).
              replace (ind + n - fd_count st) with 0 by lia.
              simpl. rewrite app_nil_r. reflexivity.
           ++ replace (fd_i st =? n) with false
                by (symmetry; apply Z.eqb_neq; lia).
              replace (fd_i st + 1 <=? n) with true
                by (symmetry; apply Z.leb_le; lia).
              rewrite app_nil_r.
              rewrite lookup_cons_Z by lia.
              replace (ind + n - (fd_count st + 1))
                with (ind + n - fd_count st - 1) by lia.
              reflexivity.
Qed.

(** [fetch_data] gives cell [j] of the window line [ind + j] of the
    file when the file has such a line and it converts to a float; the
    cell keeps what it held otherwise (short file, line that does not
    convert). *)
Theorem fetch_data_window (oob : Z -> float) (lines : list (option float))
    (data : list float) (n ind : Z) :
  0 <= ind -> 0 <= n -> ind + n <= INT_MAX ->
  Z.of_nat (length lines) <= INT_MAX ->
  Z.of_nat (length data) = n ->
  exists r,
    fetch_data (Some lines) data n ind = Some r /\
    Z.of_nat (length (fd_data r)) = n /\
    forall j, 0 <= j < n ->
      rd oob (fd_data r) j =
        match lines !! Z.to_nat (ind + j) with
        | Some (Some v) => v
        | _ => rd oob data j
        end.
Proof.
  intros Hind Hn Hmax Hlines Hdata.
  exists (fetch_loop lines n ind (mkFetch data [] 0 0)).
  split; [reflexivity |].
  destruct (fetch_loop_spec oob n ind Hind Hn Hmax lines
              (mkFetch data [] 0 0)) as (Hl & Hcells & _);
    simpl; try lia.
  split; [exact Hl |].
  intros j Hj. rewrite (Hcells j Hj). cbn [fd_i fd_count fd_data].
  replace (j <? 0) with false by (symmetry; apply Z.ltb_ge; lia).
  rewrite Z.sub_0_r. reflexivity.
Qed.

Lemma fetch_data_window_witness :
  exists r,
    fetch_data (Some [Some 1; Some 2; None; Some 4]%float)
      [9; 9; 9]%float 3 1 = Some r /\
    Z.of_nat (length (fd_data r)) = 3 /\
    forall j, 0 <= j < 3 ->
      rd (fun _ => 0%float) (fd_data r) j =
        match [Some 1; Some 2; None; Some 4]%float !! Z.to_nat (1 + j) with
        | Some (Some v) => v
        | _ => rd (fun _ => 0%float) [9; 9; 9]%float j
        end.
Proof.
  apply (fetch_data_window (fun _ => 0%float)
           [Some 1; Some 2; None; Some 4]%float [9; 9; 9]%float 3 1).
  - lia.
  - lia.
  - unfold INT_MAX. lia.
  - unfold INT_MAX. simpl. lia.
  - reflexivity.
Defined.

(** [fetch_data] reads one line too many: when the file has a line
    number [ind + n] that converts, its float is stored at [data[n]],
    one cell after the buffer of [n] floats; nothing else is ever
    stored outside the buffer. *)
Theorem fetch_data_overrun (lines : list (option float))
    (data : list float) (n ind : Z) :
  0 <= ind -> 0 <= n -> ind + n <= INT_MAX ->
  Z.of_nat (length lines) <= INT_MAX ->
  Z.of_nat (length data) = n ->
  exists r,
    fetch_data (Some lines) data n ind = Some r /\
    fd_spill r =
      match lines !! Z.to_nat (ind + n) with
      | Some (Some v) => [(n, v)]
      | _ => []
      end.
Proof.
  intros Hind Hn Hmax Hlines Hdata.
  exists (fetch_loop lines n ind (mkFetch data [] 0 0)).
  split; [reflexivity |].
  destruct (fetch_loop_spec (fun _ => 0%float) n ind Hind Hn Hmax lines
              (mkFetch data [] 0 0)) as (_ & _ & Hspill);
    simpl; try lia.
  rewrite Hspill. cbn [fd_i fd_count fd_spill].
  replace (0 <=? n) with true by (symmetry; apply Z.leb_le; lia).
  rewrite Z.sub_0_r. reflexivity.
Qed.

Lemma fetch_data_overrun_witness :
  exists r,
    fetch_data (Some [Some 1; Some 2; Some 3; Some 4; Some 5]%float)
      [9; 9; 9]%float 3 1 = Some r /\
    fd_spill r =
      match [Some 1; Some 2; Some 3; Some 4; Some 5]%float
              !! Z.to_nat (1 + 3) with
      | Some (Some v) => [(3, v)]
      | _ => []
      end.
Proof.
  apply (fetch_data_overrun [Some 1; Some 2; Some 3; Some 4; Some 5]%float
           [9; 9; 9]%float 3 1).
  - lia.
  - lia.
  - unfold INT_MAX. lia.
  - unfold INT_MAX. simpl. lia.
  - reflexivity.
Defined.

(** ** extract_raw_filename *)

Lemma wr_app_zero (done : list Z) (k : nat) (ch : Z) :
  wr (done ++ replicate (S k) 0) (Z.of_nat (length done)) ch =
    (done ++ [ch]) ++ replicate k 0.
Proof.
  unfold wr. rewrite length_app, length_replicate.
  replace ((0 <=? Z.of_nat (length done))
           && (Z.of_nat (length done) <? Z.of_nat (length done + S k)))
    with true
    by (symmetry; apply andb_true_iff; split;
        [apply Z.leb_le | apply Z.ltb_lt]; lia).
  rewrite Nat2Z.id.
  rewrite <- (Nat.add_0_r (length done)) at 1.
  rewrite insert_app_r. simpl. rewrite <- app_assoc. reflexivity.
Qed.

Lemma copy_until_dot_spec (buf : nat) :
  forall (tmp done : list Z),
    (length done + length tmp <= buf)%nat ->
    exists stem rest,
      tmp = stem ++ rest /\
      Forall (fun ch => ch <> 46) stem /\
      (rest = [] \/ exists rest', rest = 46 :: rest') /\
      copy_until_dot tmp (Z.of_nat (length done))
        (done ++ replicate (buf - length done) 0) =
        (done ++ stem) ++ replicate (buf - length done - length stem) 0.
Proof.
  induction tmp as [| ch tl IH]; intros done Hlen.
  - exists [], []. simpl. rewrite app_nil_r, Nat.sub_0_r.
    repeat split; auto.
  - simpl copy_until_dot. destruct (ch =? 46) eqn:Edot; simpl negb; cbv iota.
    + apply Z.eqb_eq in Edot. subst ch.
      exists [], (46 :: tl). simpl. rewrite app_nil_r, Nat.sub_0_r.
      repeat split; eauto.
    + apply Z.eqb_neq in Edot. simpl length in Hlen.
      destruct (IH (done ++ [ch])) as (stem & rest & Htl & Hstem & Hrest & Hcopy).
      { rewrite length_app. simpl. lia. }
      exists (ch :: stem), rest.
      split; [simpl; rewrite Htl; reflexivity |].
      split; [constructor; assumption |]. split; [exact Hrest |].
      replace (buf - length done)%nat with (S (buf - length done - 1)) by lia.
      rewrite wr_app_zero.
      replace (Z.of_nat (length done) + 1)
        with (Z.of_nat (length (done ++ [ch])))
        by (rewrite length_app; simpl; lia).
      replace (buf - length done - 1)%nat
        with (buf - length (done ++ [ch]))%nat
        by (rewrite length_app; simpl; lia).
      rewrite Hcopy. rewrite <- (app_assoc done [ch] stem). simpl app.
      f_equal; f_equal; rewrite ?length_app; simpl length; lia.
Qed.

(** [extract_raw_filename] leaves in [bname] the characters of the
    base name that come before its first ['.'] (all of them when it
    has none), followed by zeros up to [buf] bytes; a base name longer
    than [buf] ends the program. *)
Theorem extract_raw_filename_stem (tmp : list Z) (buf : Z) :
  0 <= buf ->
  (Z.of_nat (length tmp) > buf -> extract_raw_filename tmp buf = None) /\
  (Z.of_nat (length tmp) <= buf ->
   exists stem rest,
     tmp = stem ++ rest /\
     Forall (fun ch => ch <> 46) stem /\
     (rest = [] \/ exists rest', rest = 46 :: rest') /\
     extract_raw_filename tmp buf =
       Some (stem ++ replicate (Z.to_nat buf - length stem) 0)).
Proof.
  intros Hbuf. unfold extract_raw_filename. split; intros Hlen.
  - replace (Z.of_nat (length tmp) >? buf) with true
      by (symmetry; rewrite Z.gtb_ltb; apply Z.ltb_lt; lia).
    reflexivity.
  - replace (Z.of_nat (length tmp) >? buf) with false
      by (symmetry; rewrite Z.gtb_ltb; apply Z.ltb_ge; lia).
    destruct (copy_until_dot_spec (Z.to_nat buf) tmp [])
      as (stem & rest & Htmp & Hstem & Hrest & Hcopy); [simpl; lia |].
    exists stem, rest. simpl in Hcopy. rewrite Nat.sub_0_r in Hcopy.
    change (Z.of_nat 0) with 0 in Hcopy. cbv zeta.
    rewrite Hcopy. repeat split; assumption.
Qed.

Lemma extract_raw_filename_stem_witness :
  (Z.of_nat (length [114; 117; 110; 46; 49; 46; 100; 97; 116]) > 16 ->
   extract_raw_filename [114; 117; 110; 46; 49; 46; 100; 97; 116] 16 = None) /\
  (Z.of_nat (length [114; 117; 110; 46; 49; 46; 100; 97; 116]) <= 16 ->
   exists stem rest,
     [114; 117; 110; 46; 49; 46; 100; 97; 116] = stem ++ rest /\
     Forall (fun ch => ch <> 46) stem /\
     (rest = [] \/ exists rest', rest = 46 :: rest') /\
     extract_raw_filename [114; 117; 110; 46; 49; 46; 100; 97; 116] 16 =
       Some (stem ++ replicate (Z.to_nat 16 - length stem) 0)).
Proof.
  apply (extract_raw_filename_stem
           [114; 117; 110; 46; 49; 46; 100; 97; 116] 16).
  lia.
Defined.

(** ** What ampd and main make of their parts *)

(** On a window that is not stopped and has at least one scalogram
    row, the lambda [ampd] selects is a row index: [0 <= lambda < l]
    with [l = (int)ceil(n/2) - 1]. *)
Theorem ampd_lambda_in_range (c : Consts) (e : Env) (data : list float)
    (n : Z) (lms : Mtx) (gamma sigma : list float) (peaks : list Z) :
  is_nan (fit_r (linear_fit (junk_data e) data n (TIMESTEP_DEFAULT c))) = false ->
  1 <= lms_rows n ->
  0 <= ampd_lambda (ampd c e data n lms gamma sigma peaks) < lms_rows n.
Proof.
  intros Hnan Hl. unfold ampd. rewrite Hnan.
  unfold ampd_detect. cbv zeta. simpl ampd_lambda.
  apply argmin_minind_in_range. exact Hl.
Qed.

Lemma ampd_lambda_in_range_witness :
  let c := ex_consts 0.5 2 in
  let e := ex_env 0 ex_draws1 in
  0 <= ampd_lambda (ampd c e ex_window 8 (malloc_mtx 0 3 8) [0; 0; 0]%float
                      [0; 0; 0; 0; 0; 0; 0; 0]%float [0; 0; 0; 0; 0; 0; 0; 0])
    < lms_rows 8.
Proof.
  intros c e.
  apply (ampd_lambda_in_range c e ex_window 8).
  - vm_compute. reflexivity.
  - vm_compute. discriminate.
Defined.

(** Whatever [ampd] returns, its peak set is a strictly increasing
    list of indices of the window, consecutive ones more than
    [IND_THRESH] apart. *)
Theorem ampd_peaks_increasing_and_spaced (c : Consts) (e : Env)
    (data : list float) (n : Z) (lms : Mtx) (gamma sigma : list float)
    (peaks : list Z) :
  0 <= n <= INT_MAX ->
  Z.of_nat (length peaks) = n ->
  let ps := ampd_peaks (ampd c e data n lms gamma sigma peaks) in
  (forall (q1 q2 : nat) (a b : Z),
     (q1 < q2)%nat -> ps !! q1 = Some a -> ps !! q2 = Some b -> a < b) /\
  (forall (q : nat) (a : Z), ps !! q = Some a -> 0 <= a < n) /\
  (forall (q : nat) (a b : Z),
     ps !! q = Some a -> ps !! S q = Some b -> IND_THRESH c < b - a).
Proof.
  intros Hn Hlen ps. unfold ps, ampd.
  destruct (is_nan (fit_r (linear_fit (junk_data e) data n
                             (TIMESTEP_DEFAULT c)))).
  - simpl ampd_peaks.
    repeat split; intros; rewrite lookup_nil in *; discriminate.
  - unfold ampd_detect. cbv zeta. simpl ampd_peaks.
    match goal with
    | |- context [find_peaks c e ?sg n peaks] =>
        destruct (find_peaks_inv c e sg n peaks Hn Hlen)
          as (Hj & Hnp & Hbuf & Hin & Hmono & Hgap);
        set (st := find_peaks c e sg n peaks) in *
    end.
    split; [| split].
    + intros q1 q2 a b H12 Ha Hb.
      apply (peak_set_lookup e) in Ha, Hb.
      destruct Ha as [Ha1 <-], Hb as [Hb1 <-]. apply Hmono; lia.
    + intros q a Ha. apply (peak_set_lookup e) in Ha.
      destruct Ha as [Ha1 <-].
      destruct (Hin (Z.of_nat q) ltac:(lia)) as [Hb _]. lia.
    + intros q a b Ha Hb.
      apply (peak_set_lookup e) in Ha, Hb.
      destruct Ha as [Ha1 <-], Hb as [Hb1 <-].
      replace (Z.of_nat (S q)) with (Z.of_nat q + 1) by lia.
      apply Hgap; lia.
Qed.

Lemma ampd_peaks_increasing_and_spaced_witness :
  let c := ex_consts 0.5 2 in
  let e := ex_env 0 ex_draws1 in
  let ps := ampd_peaks
              (ampd c e ex_window 8 (malloc_mtx 0 3 8) [0; 0; 0]%float
                 [0; 0; 0; 0; 0; 0; 0; 0]%float [0; 0; 0; 0; 0; 0; 0; 0]) in
  (forall (q1 q2 : nat) (a b : Z),
     (q1 < q2)%nat -> ps !! q1 = Some a -> ps !! q2 = Some b -> a < b) /\
  (forall (q : nat) (a : Z), ps !! q = Some a -> 0 <= a < 8) /\
  (forall (q : nat) (a b : Z),
     ps !! q = Some a -> ps !! S q = Some b -> IND_THRESH c < b - a).
Proof.
  intros c e.
  apply (ampd_peaks_increasing_and_spaced c e ex_window 8 (malloc_mtx 0 3 8)
           [0; 0; 0]%float [0; 0; 0; 0; 0; 0; 0; 0]%float
           [0; 0; 0; 0; 0; 0; 0; 0]).
  - unfold INT_MAX. lia.
  - reflexivity.
Defined.

(** [main] adds what [ampd] returns to the total without testing it:
    with an overlap of 0, a first window on which [ampd] returns the
    error value -1 makes the reported total -1. *)
Theorem main_batches_adds_error_value (engine : Z -> Z -> Z)
    (datalen data_buf : Z) :
  2 <= cycles_of datalen data_buf (n_ovlap_of data_buf 0) ->
  engine 0 data_buf = -1 ->
  sum_n_peaks (main_batches engine datalen data_buf 0) = -1.
Proof.
  intros Hcycles Herr. unfold main_batches. cbv zeta.
  rewrite batch_loop_unfold.
  destruct (Z.to_nat (cycles_of datalen data_buf (n_ovlap_of data_buf 0)))
    eqn:Hnat; [lia |].
  replace (0 =? cycles_of datalen data_buf (n_ovlap_of data_buf 0) - 1)
    with false by (symmetry; apply Z.eqb_neq; lia).
  simpl sum_n_peaks. rewrite Herr. vm_compute. reflexivity.
Qed.

Lemma main_batches_adds_error_value_witness :
  sum_n_peaks (main_batches (fun _ _ => -1) 1000 200 0) = -1.
Proof.
  apply (main_batches_adds_error_value (fun _ _ => -1) 1000 200).
  - vm_compute. discriminate.
  - reflexivity.
Defined.

(** ** Witnesses of two lemmas above *)

Lemma argmin_minind_in_range_witness :
  0 <= argmin_minind (fun _ => 0%float) [6; 4; 4; 5]%float 4 < 4.
Proof.
  apply (argmin_minind_in_range (fun _ => 0%float) [6; 4; 4; 5]%float 4).
  lia.
Defined.

Lemma find_peaks_first_candidate_witness :
  let c := ex_consts 0.5 2 in
  let e := ex_env 0 (fun _ => 0) in
  let ps := peak_set (find_peaks c e ex_sigma 8 (replicate 8 0)) in
  if sub32 0 (junk_peaks e (-1)) >? IND_THRESH c
  then ps !! O = Some 0
  else 0 ∉ ps.
Proof.
  intros c e.
  apply (find_peaks_first_candidate c e ex_sigma 8 0 (replicate 8 0)).
  - lia.
  - reflexivity.
  - intros i Hi. lia.
  - vm_compute. reflexivity.
Defined.
